(** * The authentication session hook [useAuth] (src/hooks/useAuth.ts)

    A shallow embedding of the token-lifecycle logic of the hook: the JWT
    payload decoder, the refresh operation, the schedule/expiry check, the
    bootstrap effect, sign-in and sign-out.

    The hook is asynchronous: every [await] of a network call suspends the
    running operation and lets other callbacks run.  The embedding is an
    event system.  A state holds what the hook can observe or change
    (the [useState] value, the [localStorage] slot, the [refreshTimer]
    variables, the timers pending in the runtime, the operations suspended
    at an [await]); an event is one callback run by the runtime (the mount
    effect, a user calling [signIn] or [signOut], a timer firing, a network
    call resolving) and [step] runs the synchronous code of that callback
    up to its next [await].  The answers of the collaborators and the
    readings of the clock travel with the events.  One mounted component
    is modelled, from its first render on; the state it keeps in
    [useState] and the closures of each of its renders are explicit.

    Numbers: JSON numbers, [Date.now()] and timer delays are modelled as
    integers ([Z]); the NumericDate of a token and the clock are integral
    and far below 2^53, where the double arithmetic of the source is
    exact.  The conversion of a value to a number gives a number, NaN, or
    throws a TypeError. *)

From Stdlib Require Import ZArith String Ascii List Bool Lia.
From stdpp Require Import base option list strings.

Open Scope string_scope.
Open Scope list_scope.
Open Scope Z_scope.

(** ** JavaScript values met by the decoder *)

(** The result of [JSON.parse]. *)
#[local] Set Warnings "-register-all".
Inductive json : Type :=
| JNull
| JBool (b : bool)
| JNum (n : Z)
| JStr (s : string)
| JArr (xs : list json)
| JObj (fields : list (string * json)).
#[local] Set Warnings "register-all".

(** The outcome of a conversion to a number: a number, NaN, or the
    TypeError thrown when an object or array has no primitive value (an
    object parsed from JSON whose own [toString] property hides the
    inherited method, as in [{ toString: 0 }]). *)
Inductive Converted : Type :=
| IsNumber (n : Z)
| IsNaN
| ThrowsTypeError.

(** What the hook takes from the platform: [atob] and [JSON.parse]
    ([None] when they throw) and the conversion ToNumber of ECMAScript on
    strings, arrays and objects. *)
Class Platform : Type := {
  atob : string -> option string;
  JSON_parse : string -> option json;
  ToNumber : json -> Converted
}.

(** Truthiness of a string: [""] is falsy. *)
Definition truthy_string (s : string) : bool :=
  match s with
  | EmptyString => false
  | String _ _ => true
  end.

(** Truthiness of a [string | null]. *)
Definition truthy_opt (o : option string) : bool :=
  match o with
  | Some s => truthy_string s
  | None => false
  end.

(** [a || b] on two values of type [string | null]. *)
Definition js_or (a b : option string) : option string :=
  if truthy_opt a then a else b.

(** Truthiness of a parsed value ([!v] is its negation). *)
Definition truthy (v : json) : bool :=
  match v with
  | JNull => false
  | JBool b => b
  | JNum n => negb (Z.eqb n 0)
  | JStr s => truthy_string s
  | JArr _ => true
  | JObj _ => true
  end.

(** Own property of an object; the first binding of a key is the one the
    object holds. *)
Fixpoint assoc (k : string) (fs : list (string * json)) : option json :=
  match fs with
  | [] => None
  | (k', v) :: rest => if String.eqb k k' then Some v else assoc k rest
  end.

(** [decoded.exp]: [None] is [undefined].  Read on a number, a boolean, a
    string or an array the property is undefined; the source reads it only
    behind [!decoded], so never on [null]. *)
Definition get_exp (decoded : json) : option json :=
  match decoded with
  | JObj fs => assoc "exp" fs
  | _ => None
  end.

(** ** String helpers of [decodeJwt] *)

(** [s.split('.')], with the piece being read carried in [cur] (reversed). *)
Fixpoint split_on (sep : ascii) (s : string) (cur : string) : list string :=
  match s with
  | EmptyString => [cur]
  | String c rest =>
      if Ascii.eqb c sep then cur :: split_on sep rest EmptyString
      else split_on sep rest (String.append cur (String c EmptyString))
  end.

Definition split (sep : ascii) (s : string) : list string :=
  split_on sep s EmptyString.

(** [s.replace(/a/g, b)] for single characters. *)
Fixpoint replace_all (a b : ascii) (s : string) : string :=
  match s with
  | EmptyString => EmptyString
  | String c rest =>
      String (if Ascii.eqb c a then b else c) (replace_all a b rest)
  end.

Section Decoder.
Context `{Platform}.

(** [token.split('.')[1]], then [atob] of the segment with the URL-safe
    characters replaced, then [JSON.parse]. *)
Definition decode_payload (token : string) : option json :=
  match split "." token !! 1%nat with
  | None => None
  | Some payload =>
      match atob (replace_all "_" "/" (replace_all "-" "+" payload)) with
      | None => None
      | Some text => JSON_parse text
      end
  end.

(** [decodeJwt]: a missing segment (a TypeError on [payload.replace]), a
    throwing [atob] and a throwing [JSON.parse] all end in the [catch],
    which returns [null]. *)
Definition decodeJwt (token : string) : json :=
  match decode_payload token with
  | Some v => v
  | None => JNull
  end.

(** [v * 1000]: numbers multiply, [true] is 1, [false] and [null] are 0,
    the other values go through the platform's ToNumber, whose TypeError
    the multiplication passes on. *)
Definition times_1000 (v : json) : Converted :=
  match v with
  | JNum n => IsNumber (n * 1000)
  | JBool true => IsNumber 1000
  | JBool false => IsNumber 0
  | JNull => IsNumber 0
  | JStr _ | JArr _ | JObj _ =>
      match ToNumber v with
      | IsNumber n => IsNumber (n * 1000)
      | IsNaN => IsNaN
      | ThrowsTypeError => ThrowsTypeError
      end
  end.

End Decoder.

(** ** Data of the hook *)

Inductive UserRole : Type := candidate | recruiter.

(** [interface FlaskUser]. *)
Record FlaskUser : Type := {
  id : string;
  name : option string;
  first_name : string;
  last_name : string;
  email : string;
  role : UserRole
}.

(** The [session] held in the state: the Supabase session after a refresh,
    [{ access_token: token }] after bootstrap and sign-in.  Only its access
    token matters here. *)
Record Session : Type := { access_token : string }.

(** [interface AuthState]. *)
Record AuthState : Type := {
  user : option FlaskUser;
  session : option Session;
  auth_role : option UserRole;
  loading : bool
}.

(** The initial value given to [useState]. *)
Definition initial_auth : AuthState :=
  {| user := None; session := None; auth_role := None; loading := true |}.

(** [{ user: null, session: null, role: null, loading: false }]. *)
Definition signed_out : AuthState :=
  {| user := None; session := None; auth_role := None; loading := false |}.

(** The state set after a token was accepted. *)
Definition signed_in (u : FlaskUser) (s : Session) : AuthState :=
  {| user := Some u; session := Some s; auth_role := Some (role u);
     loading := false |}.

(** ** Answers of the collaborators *)

(** [getMyProfile()]: an [ApiResponse<FlaskUser>] or an exception. *)
Inductive ProfileResp : Type :=
| PThrow
| PResp (data : option FlaskUser) (error : option string).

(** [supabase.auth.refreshSession()]: [{ data: { session }, error }] or an
    exception. *)
Inductive RefreshResp : Type :=
| RThrow
| RResp (sess : option Session) (error : option string).

(** The [data] of a login response, with the two fields [signIn] reads; a
    missing [access_token] is the empty string. *)
Record LoginData : Type := {
  login_token : string;
  login_user : option FlaskUser
}.

(** [apiLogin(email, password)]: an [ApiResponse<any>] or an exception. *)
Inductive LoginResp : Type :=
| LThrow
| LResp (data : option LoginData) (error : option string).

(** What [signIn] resolves to, [{ user, error }], or the rejection of its
    promise. *)
Inductive SignInResult : Type :=
| SignInRejected
| SignInReturn (u : option FlaskUser) (error : option string).

(** ** The state of the event system *)

(** A timer pending in the runtime.  Every timer of the hook runs the same
    callback (lines 136-141), closed over the variables of the render that
    armed it. *)
Record Timer : Type := {
  tm_id : nat;
  tm_delay : Z;
  tm_render : nat
}.

(** Who awaits the boolean of [refreshAccessToken]: [checkLocalSession]
    (line 181) or the schedule check (the timer callback, line 137, and the
    immediate refresh, line 147, which continue alike). *)
Inductive Caller : Type := FromBoot | FromSchedule.

(** An operation suspended at an [await], with the variables its
    continuation reads; [r] is the render whose closures it runs in. *)
Inductive Kont : Type :=
| KBootProfile (token : string)
| KRefreshSession (r : nat) (c : Caller)
| KRefreshProfile (s : Session) (r : nat) (c : Caller)
| KSignIn (r : nat).

(** Calls made to the collaborators, oldest first. *)
Inductive Call : Type :=
| CallProfile
| CallRefresh
| CallLogin (email password : string).

(** [useAuth] is the body of a React function component: React runs it at
    every render, [useState] returns the same state at each run, and the
    effect with the empty dependency list runs once, after the first
    render, in the closures of that render.  [let refreshTimer = null]
    (line 51) is inside that body: each render has a variable of its own,
    shared by the [checkAndScheduleRefresh], [signIn] and [signOut] made by
    that render.  [cells !! r] is the variable of render [r]. *)
Record State : Type := {
  auth : AuthState;
  storage : option string;
  cells : list (option nat);
  timers : list Timer;
  next_timer : nat;
  tasks : list (nat * Kont);
  next_task : nat;
  calls : list Call
}.

(** Before the component is mounted, with [slot] in [localStorage]. *)
Definition init (slot : option string) : State :=
  {| auth := initial_auth; storage := slot; cells := []; timers := [];
     next_timer := 1; tasks := []; next_task := 0; calls := [] |}.

Definition set_auth (a : AuthState) (st : State) : State :=
  {| auth := a; storage := storage st; cells := cells st;
     timers := timers st; next_timer := next_timer st; tasks := tasks st;
     next_task := next_task st; calls := calls st |}.

Definition set_storage (slot : option string) (st : State) : State :=
  {| auth := auth st; storage := slot; cells := cells st;
     timers := timers st; next_timer := next_timer st; tasks := tasks st;
     next_task := next_task st; calls := calls st |}.

Definition set_cells (cs : list (option nat)) (st : State) : State :=
  {| auth := auth st; storage := storage st; cells := cs;
     timers := timers st; next_timer := next_timer st; tasks := tasks st;
     next_task := next_task st; calls := calls st |}.

Definition set_timers (ts : list Timer) (st : State) : State :=
  {| auth := auth st; storage := storage st; cells := cells st;
     timers := ts; next_timer := next_timer st; tasks := tasks st;
     next_task := next_task st; calls := calls st |}.

Definition set_tasks (ks : list (nat * Kont)) (st : State) : State :=
  {| auth := auth st; storage := storage st; cells := cells st;
     timers := timers st; next_timer := next_timer st; tasks := ks;
     next_task := next_task st; calls := calls st |}.

(** ** Runtime primitives *)

(** [clearInterval(id)] / [clearTimeout(id)]: the two share one pool of
    identifiers; an identifier that is not pending is ignored. *)
Definition clear_timer (i : nat) (ts : list Timer) : list Timer :=
  filter (fun t => tm_id t <> i) ts.

(** The value of [refreshTimer] in the closures of render [r]. *)
Definition refreshTimer (r : nat) (st : State) : option nat :=
  match cells st !! r with
  | Some c => c
  | None => None
  end.

(** [if (refreshTimer) { clearInterval(refreshTimer); refreshTimer = null; }]
    (lines 99-102, 202-205, 250-253); a timer handle is always truthy. *)
Definition clear_refreshTimer (r : nat) (st : State) : State :=
  match refreshTimer r st with
  | Some i =>
      set_cells (<[r := None]> (cells st))
        (set_timers (clear_timer i (timers st)) st)
  | None => st
  end.

(** [refreshTimer = setTimeout(callback, delay)] in render [r]. *)
Definition arm_timer (r : nat) (delay : Z) (st : State) : State :=
  {| auth := auth st; storage := storage st;
     cells := <[r := Some (next_timer st)]> (cells st);
     timers := timers st ++
       [{| tm_id := next_timer st; tm_delay := delay; tm_render := r |}];
     next_timer := S (next_timer st); tasks := tasks st;
     next_task := next_task st; calls := calls st |}.

(** A call to a collaborator followed by [await]: the call is logged and
    the continuation waits for the answer. *)
Definition await (c : Call) (k : Kont) (st : State) : State :=
  {| auth := auth st; storage := storage st; cells := cells st;
     timers := timers st; next_timer := next_timer st;
     tasks := tasks st ++ [(next_task st, k)];
     next_task := S (next_task st); calls := calls st ++ [c] |}.

Fixpoint find_task (i : nat) (ks : list (nat * Kont)) : option Kont :=
  match ks with
  | [] => None
  | (j, k) :: rest => if Nat.eqb i j then Some k else find_task i rest
  end.

Definition remove_task (i : nat) (ks : list (nat * Kont)) : list (nat * Kont) :=
  filter (fun p => fst p <> i) ks.

Fixpoint find_timer (i : nat) (ts : list Timer) : option Timer :=
  match ts with
  | [] => None
  | t :: rest => if Nat.eqb i (tm_id t) then Some t else find_timer i rest
  end.

(** The render in whose closures a suspended operation continues. *)
Definition kont_render (k : Kont) : nat :=
  match k with
  | KBootProfile _ => 0%nat
  | KRefreshSession r _ => r
  | KRefreshProfile _ r _ => r
  | KSignIn r => r
  end.

(** The pending timers armed through the closures of render [r]. *)
Definition timers_of_render (r : nat) (ts : list Timer) : list Timer :=
  filter (fun t => tm_render t = r) ts.

(** The discipline the guard of [checkAndScheduleRefresh] keeps for one
    render: every pending timer is the one held by the [refreshTimer] of
    the render that armed it, and each render has at most one pending. *)
Definition timers_owned (st : State) : Prop :=
  (∀ t, t ∈ timers st → cells st !! tm_render t = Some (Some (tm_id t))) ∧
  (∀ r, (length (timers_of_render r (timers st)) <= 1)%nat) ∧
  (∀ i k, (i, k) ∈ tasks st → (kont_render k < length (cells st))%nat).

(** [localStorage.removeItem] followed by the reset of the state: lines
    90-91, 121-122 and 194-195. *)
Definition teardown (st : State) : State :=
  set_auth signed_out (set_storage None st).

(** ** The operations of the hook *)

Section Hook.
Context `{Platform}.

(** [const REFRESH_BUFFER = 5 * 60 * 1000] (line 116). *)
Definition REFRESH_BUFFER : Z := 5 * 60 * 1000.

(** [refreshAccessToken] up to its first [await] (lines 55-59): the call to
    [supabase.auth.refreshSession()].  [r] and [c] say who awaits the
    boolean it resolves to. *)
Definition refreshAccessToken (r : nat) (c : Caller) (st : State) : State :=
  await CallRefresh (KRefreshSession r c) st.

(** [checkAndScheduleRefresh(initialToken)] in the closures of render [r],
    with [now] the value of [Date.now()] (lines 97-154): the state the
    call leaves.  The multiplication of line 111 is in no [try]: when it
    throws, the call ends there, with the state as it is after the guard,
    and the exception goes to the caller ([schedule_throws]). *)
Definition checkAndScheduleRefresh (r : nat) (initialToken : option string)
    (now : Z) (st : State) : State :=
  let st := clear_refreshTimer r st in
  match js_or initialToken (storage st) with
  | None => st
  | Some token =>
      if negb (truthy_string token) then st
      else
        let decoded := decodeJwt token in
        if negb (truthy decoded) then st
        else
          match get_exp decoded with
          | None => st
          | Some e =>
              if negb (truthy e) then st
              else
                match times_1000 e with
                | ThrowsTypeError => st
                | IsNaN => refreshAccessToken r FromSchedule st
                | IsNumber expiryTimeMs =>
                    let expiresInMs := expiryTimeMs - now in
                    if expiresInMs <=? 0 then teardown st
                    else if expiresInMs >? REFRESH_BUFFER then
                      arm_timer r (expiresInMs - REFRESH_BUFFER) st
                    else refreshAccessToken r FromSchedule st
                end
          end
  end.

(** Whether [checkAndScheduleRefresh(initialToken)] throws: the token is
    there, it decodes, its [exp] is truthy, and [decoded.exp * 1000] (line
    111) throws. *)
Definition schedule_throws (initialToken : option string) (st : State)
    : bool :=
  match js_or initialToken (storage st) with
  | None => false
  | Some token =>
      if negb (truthy_string token) then false
      else
        let decoded := decodeJwt token in
        if negb (truthy decoded) then false
        else
          match get_exp decoded with
          | None => false
          | Some e =>
              if negb (truthy e) then false
              else
                match times_1000 e with
                | ThrowsTypeError => true
                | _ => false
                end
          end
  end.

(** The two calls of [checkAndScheduleRefresh] inside the [try] of
    [checkLocalSession] (lines 176 and 183): an exception of the call is
    caught at line 188, and lines 194-195 follow. *)
Definition schedule_in_try (r : nat) (initialToken : option string) (now : Z)
    (st : State) : State :=
  if schedule_throws initialToken st then
    teardown (checkAndScheduleRefresh r initialToken now st)
  else checkAndScheduleRefresh r initialToken now st.

(** What the awaiter of [refreshAccessToken] does with the boolean: the
    timer callback and the immediate refresh reschedule on success (lines
    138-141, 148-151), and nothing catches an exception of that call;
    [checkLocalSession] reschedules on success, inside its [try], and
    falls through to lines 194-195 otherwise (lines 181-195). *)
Definition after_refresh (success : bool) (r : nat) (c : Caller) (now : Z)
    (st : State) : State :=
  match c with
  | FromSchedule =>
      if success then checkAndScheduleRefresh r (storage st) now st else st
  | FromBoot =>
      if success then schedule_in_try r (storage st) now st
      else teardown st
  end.

(** The test of line 61, or an exception of the call: the refresh
    mechanism failed. *)
Definition refresh_failed (resp : RefreshResp) : bool :=
  match resp with
  | RThrow => true
  | RResp _ (Some _) => true
  | RResp None None => true
  | RResp (Some s) None => negb (truthy_string (access_token s))
  end.

(** [refreshAccessToken] from the answer of [refreshSession] to its next
    [await] (lines 59-69), or through its [catch] (lines 87-93) to its
    awaiter. *)
Definition resume_refresh_session (resp : RefreshResp) (r : nat) (c : Caller)
    (now : Z) (st : State) : State :=
  match resp with
  | RResp (Some s) None =>
      if truthy_string (access_token s) then
        await CallProfile (KRefreshProfile s r c)
          (set_storage (Some (access_token s)) st)
      else after_refresh false r c now (teardown st)
  | _ => after_refresh false r c now (teardown st)
  end.

(** [refreshAccessToken] from the answer of [getMyProfile] to its end
    (lines 69-93), then its awaiter. *)
Definition resume_refresh_profile (resp : ProfileResp) (s : Session) (r : nat)
    (c : Caller) (now : Z) (st : State) : State :=
  match resp with
  | PResp (Some u) err =>
      if truthy_opt err then after_refresh false r c now (teardown st)
      else after_refresh true r c now (set_auth (signed_in u s) st)
  | _ => after_refresh false r c now (teardown st)
  end.

(** [checkLocalSession] up to its [await] (lines 160-166); it runs in the
    closures of the first render. *)
Definition checkLocalSession (st : State) : State :=
  let st :=
    set_auth {| user := user (auth st); session := session (auth st);
                auth_role := auth_role (auth st); loading := true |} st in
  match storage st with
  | Some token =>
      if truthy_string token then await CallProfile (KBootProfile token) st
      else teardown st
  | None => teardown st
  end.

(** [checkLocalSession] from the answer of [getMyProfile] (lines 166-195). *)
Definition resume_boot_profile (resp : ProfileResp) (token : string) (now : Z)
    (st : State) : State :=
  match resp with
  | PThrow => teardown st
  | PResp (Some u) _ =>
      schedule_in_try 0 (Some token) now
        (set_auth (signed_in u {| access_token := token |}) st)
  | PResp None err =>
      if truthy_opt err then refreshAccessToken 0 FromBoot st
      else teardown st
  end.

(** The cleanup returned by the effect (lines 201-206). *)
Definition cleanup (st : State) : State := clear_refreshTimer 0 st.

(** [signIn(email, password)] up to its [await] (line 219). *)
Definition signIn_start (r : nat) (email password : string) (st : State)
    : State :=
  await (CallLogin email password) (KSignIn r) st.

Definition missing_token_or_user : string :=
  "Login failed: Server response missing token or user data.".

(** [signIn] from the answer of [apiLogin] (lines 221-243).  [signIn] has
    no [try]: an exception of the call of line 238 rejects its promise,
    after the token was stored and the state set. *)
Definition resume_signIn (resp : LoginResp) (r : nat) (now : Z) (st : State)
    : State * SignInResult :=
  match resp with
  | LThrow => (st, SignInRejected)
  | LResp data err =>
      if truthy_opt err then (st, SignInReturn None err)
      else
        match data with
        | Some {| login_token := token; login_user := Some u |} =>
            if truthy_string token then
              let st :=
                set_auth (signed_in u {| access_token := token |})
                  (set_storage (Some token) st) in
              (checkAndScheduleRefresh r (Some token) now st,
               if schedule_throws (Some token) st then SignInRejected
               else SignInReturn (Some u) None)
            else (st, SignInReturn None (Some missing_token_or_user))
        | _ => (st, SignInReturn None (Some missing_token_or_user))
        end
  end.

(** The login call failed (it returned an error) or its payload misses
    the token or the user: the tests of lines 221 and 225. *)
Definition login_failed (resp : LoginResp) : bool :=
  match resp with
  | LThrow => false
  | LResp data err =>
      truthy_opt err ||
      match data with
      | Some d =>
          negb (truthy_string (login_token d)) ||
          match login_user d with
          | Some _ => false
          | None => true
          end
      | None => true
      end
  end.

(** [signOut()] in the closures of render [r] (lines 246-266); it has no
    [await] and resolves to [{ error: null }]. *)
Definition signOut (r : nat) (st : State) : State * option string :=
  (set_auth signed_out (clear_refreshTimer r (set_storage None st)), None).

(** ** Events *)

(** [now] is the reading of [Date.now()] during the callback. *)
Inductive Event : Type :=
| EvMount
| EvRender
| EvSignIn (r : nat) (email password : string)
| EvSignOut (r : nat)
| EvFire (timer : nat)
| EvProfile (task : nat) (resp : ProfileResp) (now : Z)
| EvRefresh (task : nat) (resp : RefreshResp) (now : Z)
| EvLogin (task : nat) (resp : LoginResp) (now : Z).

(** One callback.  [EvMount] is the first render followed by the effect.
    [EvRender] is a later render: React renders the component again after
    every [setAuthState] (each call passes a new object) and whenever the
    enclosing component renders; the render runs the body of [useAuth]
    again, so it makes a new [refreshTimer], at [null], and new closures
    over it, and what the component hands to its event handlers from then
    on are the closures of that render.  A user event names the render
    whose closure is called; an answer names the suspended operation it
    resumes.  An event that names nothing that exists changes nothing.
    The hop from the [return] of [refreshAccessToken] to its awaiter is a
    microtask: no timer, answer or user event runs in between, and the two
    are one step. *)
Definition step (st : State) (e : Event) : State :=
  match e with
  | EvMount =>
      match cells st with
      | [] => checkLocalSession (set_cells [None] st)
      | _ :: _ => st
      end
  | EvRender =>
      match cells st with
      | [] => st
      | _ :: _ => set_cells (cells st ++ [None]) st
      end
  | EvSignIn r email password =>
      if (r <? length (cells st))%nat then signIn_start r email password st
      else st
  | EvSignOut r =>
      if (r <? length (cells st))%nat then fst (signOut r st) else st
  | EvFire i =>
      match find_timer i (timers st) with
      | Some t =>
          refreshAccessToken (tm_render t) FromSchedule
            (set_timers (clear_timer i (timers st)) st)
      | None => st
      end
  | EvProfile i resp now =>
      match find_task i (tasks st) with
      | Some (KBootProfile token) =>
          resume_boot_profile resp token now
            (set_tasks (remove_task i (tasks st)) st)
      | Some (KRefreshProfile s r c) =>
          resume_refresh_profile resp s r c now
            (set_tasks (remove_task i (tasks st)) st)
      | _ => st
      end
  | EvRefresh i resp now =>
      match find_task i (tasks st) with
      | Some (KRefreshSession r c) =>
          resume_refresh_session resp r c now
            (set_tasks (remove_task i (tasks st)) st)
      | _ => st
      end
  | EvLogin i resp now =>
      match find_task i (tasks st) with
      | Some (KSignIn r) =>
          fst (resume_signIn resp r now
                 (set_tasks (remove_task i (tasks st)) st))
      | _ => st
      end
  end.

(** The state after a sequence of callbacks. *)
Definition run (st : State) (evs : list Event) : State :=
  fold_left step evs st.

(** The user carried by an answer of the profile endpoint. *)
Definition served_by_profile (e : Event) : option FlaskUser :=
  match e with
  | EvProfile _ (PResp (Some u) _) _ => Some u
  | _ => None
  end.

(** The answers on which the hook signs a user in.  The callback [e], run
    in the state [st], hands user [u] over for the token of session [s]
    when it is
    - the answer that resumes the profile check of bootstrap, made for the
      persisted token [token] of line 161, and it carries [u] (line 168):
      [s] is [{ access_token: token }];
    - the answer that resumes the profile fetch of a refresh, made for the
      session [s] that [refreshSession] has just issued, and it carries
      [u] and no error (line 71);
    - the answer that resumes a [signIn], and it carries no error, a
      non-empty token and [u] (lines 221 and 225): [s] is
      [{ access_token: token }].  No profile fetch is made for it. *)
Definition accepted (st : State) (e : Event) (u : FlaskUser) (s : Session)
    : Prop :=
  match e with
  | EvProfile i (PResp (Some u') err) _ =>
      match find_task i (tasks st) with
      | Some (KBootProfile token) =>
          u' = u ∧ s = {| access_token := token |}
      | Some (KRefreshProfile s' _ _) =>
          u' = u ∧ s' = s ∧ truthy_opt err = false
      | _ => False
      end
  | EvLogin i (LResp (Some d) err) _ =>
      match find_task i (tasks st) with
      | Some (KSignIn _) =>
          truthy_opt err = false ∧ login_user d = Some u ∧
          truthy_string (login_token d) = true ∧
          s = {| access_token := login_token d |}
      | _ => False
      end
  | _ => False
  end.

End Hook.

(** ** A reference platform

    An executable [Platform] on which the hook can be run on concrete
    tokens: the forgiving base64 decoder of [atob], and [JSON.parse] and
    ToNumber on the fragment of JSON without fractions, exponents and
    string escapes (outside that fragment the reference parser gives up,
    which the hook sees as an exception). *)

Definition is_ascii_whitespace (c : ascii) : bool :=
  let n := N_of_ascii c in
  (n =? 9)%N || (n =? 10)%N || (n =? 12)%N || (n =? 13)%N || (n =? 32)%N.

(** Position of a character in the base64 alphabet. *)
Definition b64_value (c : ascii) : option N :=
  let n := N_of_ascii c in
  if ((65 <=? n) && (n <=? 90))%N then Some (n - 65)%N
  else if ((97 <=? n) && (n <=? 122))%N then Some (n - 71)%N
  else if ((48 <=? n) && (n <=? 57))%N then Some (n + 4)%N
  else if (n =? 43)%N then Some 62%N
  else if (n =? 47)%N then Some 63%N
  else None.

Fixpoint b64_values (cs : list ascii) : option (list N) :=
  match cs with
  | [] => Some []
  | c :: rest =>
      match b64_value c, b64_values rest with
      | Some v, Some vs => Some (v :: vs)
      | _, _ => None
      end
  end.

Definition byte_of (n : N) : ascii := ascii_of_N (n mod 256).

(** Four sextets give three bytes; a tail of three gives two, a tail of
    two gives one. *)
Fixpoint b64_bytes (vs : list N) : list ascii :=
  match vs with
  | a :: b :: c :: d :: rest =>
      byte_of (a * 4 + b / 16) :: byte_of (b * 16 + c / 4)
        :: byte_of (c * 64 + d) :: b64_bytes rest
  | [a; b; c] => [byte_of (a * 4 + b / 16); byte_of (b * 16 + c / 4)]
  | [a; b] => [byte_of (a * 4 + b / 16)]
  | _ => []
  end.

(** Up to two [=] at the end are dropped when the length is a multiple of
    four. *)
Definition strip_padding (cs : list ascii) : list ascii :=
  if (length cs mod 4 =? 0)%nat then
    match rev cs with
    | "="%char :: "="%char :: front => rev front
    | "="%char :: front => rev front
    | _ => cs
    end
  else cs.

Definition ref_atob (s : string) : option string :=
  let cs :=
    strip_padding
      (filter (fun c => is_ascii_whitespace c = false) (list_ascii_of_string s)) in
  if (length cs mod 4 =? 1)%nat then None
  else
    match b64_values cs with
    | Some vs => Some (string_of_list_ascii (b64_bytes vs))
    | None => None
    end.

Definition is_json_whitespace (c : ascii) : bool :=
  let n := N_of_ascii c in
  (n =? 9)%N || (n =? 10)%N || (n =? 13)%N || (n =? 32)%N.

Fixpoint skip_ws (cs : list ascii) : list ascii :=
  match cs with
  | c :: rest => if is_json_whitespace c then skip_ws rest else cs
  | [] => []
  end.

Definition is_digit (c : ascii) : bool :=
  let n := N_of_ascii c in ((48 <=? n) && (n <=? 57))%N.

Definition digit_value (c : ascii) : option Z :=
  let n := N_of_ascii c in
  if ((48 <=? n) && (n <=? 57))%N then Some (Z.of_N n - 48) else None.

(** The digits at the head of [cs], read onto [acc]. *)
Fixpoint read_digits (acc : Z) (cs : list ascii) : Z * list ascii :=
  match cs with
  | c :: rest =>
      match digit_value c with
      | Some d => read_digits (acc * 10 + d) rest
      | None => (acc, cs)
      end
  | [] => (acc, [])
  end.

(** An unsigned integer literal: no leading zero, no fraction, no
    exponent. *)
Definition read_nat_literal (cs : list ascii) : option (Z * list ascii) :=
  match cs with
  | c :: rest =>
      match digit_value c with
      | Some d =>
          let '(n, rest') := read_digits d rest in
          match rest with
          | c' :: _ =>
              if (d =? 0) && is_digit c' then None
              else
                match rest' with
                | "."%char :: _ | "e"%char :: _ | "E"%char :: _ => None
                | _ => Some (n, rest')
                end
          | [] => Some (n, rest')
          end
      | None => None
      end
  | [] => None
  end.

(** The characters of a string literal after its opening quote. *)
Fixpoint read_string (acc : list ascii) (cs : list ascii)
    : option (string * list ascii) :=
  match cs with
  | [] => None
  | c :: rest =>
      let n := N_of_ascii c in
      if (n =? 34)%N then Some (string_of_list_ascii (rev acc), rest)
      else if (n =? 92)%N || (n <? 32)%N then None
      else read_string (c :: acc) rest
  end.

(** [obj[k] = v]: an existing property keeps its place. *)
Fixpoint set_field (k : string) (v : json) (fs : list (string * json))
    : list (string * json) :=
  match fs with
  | [] => [(k, v)]
  | (k', v') :: rest =>
      if String.eqb k k' then (k, v) :: rest
      else (k', v') :: set_field k v rest
  end.

Fixpoint parse_value (fuel : nat) (cs : list ascii)
    : option (json * list ascii) :=
  match fuel with
  | O => None
  | S fuel' =>
      match skip_ws cs with
      | "n"%char :: "u"%char :: "l"%char :: "l"%char :: rest =>
          Some (JNull, rest)
      | "t"%char :: "r"%char :: "u"%char :: "e"%char :: rest =>
          Some (JBool true, rest)
      | "f"%char :: "a"%char :: "l"%char :: "s"%char :: "e"%char :: rest =>
          Some (JBool false, rest)
      | "["%char :: rest =>
          match skip_ws rest with
          | "]"%char :: rest' => Some (JArr [], rest')
          | _ => parse_elements fuel' rest []
          end
      | "{"%char :: rest =>
          match skip_ws rest with
          | "}"%char :: rest' => Some (JObj [], rest')
          | _ => parse_members fuel' rest []
          end
      | "-"%char :: rest =>
          match read_nat_literal rest with
          | Some (n, rest') => Some (JNum (- n), rest')
          | None => None
          end
      | c :: rest =>
          if (N_of_ascii c =? 34)%N then
            match read_string [] rest with
            | Some (s, rest') => Some (JStr s, rest')
            | None => None
            end
          else
            match read_nat_literal (c :: rest) with
            | Some (n, rest') => Some (JNum n, rest')
            | None => None
            end
      | [] => None
      end
  end
with parse_elements (fuel : nat) (cs : list ascii) (acc : list json)
    : option (json * list ascii) :=
  match fuel with
  | O => None
  | S fuel' =>
      match parse_value fuel' cs with
      | Some (v, rest) =>
          match skip_ws rest with
          | ","%char :: rest' => parse_elements fuel' rest' (acc ++ [v])
          | "]"%char :: rest' => Some (JArr (acc ++ [v]), rest')
          | _ => None
          end
      | None => None
      end
  end
with parse_members (fuel : nat) (cs : list ascii)
    (acc : list (string * json)) : option (json * list ascii) :=
  match fuel with
  | O => None
  | S fuel' =>
      match skip_ws cs with
      | c :: rest =>
          if (N_of_ascii c =? 34)%N then
            match read_string [] rest with
            | Some (k, rest1) =>
                match skip_ws rest1 with
                | ":"%char :: rest2 =>
                    match parse_value fuel' rest2 with
                    | Some (v, rest3) =>
                        match skip_ws rest3 with
                        | ","%char :: rest4 =>
                            parse_members fuel' rest4 (set_field k v acc)
                        | "}"%char :: rest4 =>
                            Some (JObj (set_field k v acc), rest4)
                        | _ => None
                        end
                    | None => None
                    end
                | _ => None
                end
            | None => None
            end
          else None
      | [] => None
      end
  end.

Definition ref_JSON_parse (s : string) : option json :=
  let cs := list_ascii_of_string s in
  match parse_value (2 * length cs + 2) cs with
  | Some (v, rest) =>
      match skip_ws rest with
      | [] => Some v
      | _ :: _ => None
      end
  | None => None
  end.

(** A string as a number: white space trimmed, empty is 0, an optional
    minus sign, decimal digits. *)
Definition ref_string_to_number (s : string) : option Z :=
  let trimmed :=
    rev (skip_ws (rev (skip_ws (list_ascii_of_string s)))) in
  match trimmed with
  | [] => Some 0
  | "-"%char :: c :: rest =>
      match digit_value c, read_digits 0 (c :: rest) with
      | Some _, (n, []) => Some (- n)
      | _, _ => None
      end
  | c :: rest =>
      match digit_value c, read_digits 0 (c :: rest) with
      | Some _, (n, []) => Some n
      | _, _ => None
      end
  end.

(** The number a value converts to, when the conversion does not throw:
    of a string; of an array through its string form (empty, or the string
    form of its only element); of an object NaN. *)
Fixpoint ref_number_of (v : json) : option Z :=
  match v with
  | JNum n => Some n
  | JNull => Some 0
  | JBool b => Some (if b then 1 else 0)
  | JStr s => ref_string_to_number s
  | JArr [] => Some 0
  | JArr [JBool _] => None
  | JArr [x] => ref_number_of x
  | JArr _ => None
  | JObj _ => None
  end.

(** The conversion to a primitive throws for an object with an own
    [toString] property (a value parsed from JSON is never callable, and
    the inherited [valueOf] returns the object itself), and for an array
    with such an element, which [join] converts. *)
Fixpoint ref_conversion_throws (v : json) : bool :=
  match v with
  | JObj fs =>
      match assoc "toString" fs with
      | Some _ => true
      | None => false
      end
  | JArr xs => existsb ref_conversion_throws xs
  | _ => false
  end.

Definition ref_ToNumber (v : json) : Converted :=
  if ref_conversion_throws v then ThrowsTypeError
  else
    match ref_number_of v with
    | Some n => IsNumber n
    | None => IsNaN
    end.

Definition ref_platform : Platform :=
  {| atob := ref_atob; JSON_parse := ref_JSON_parse; ToNumber := ref_ToNumber |}.

(** ** Example data

    Tokens are [header.payload.signature] with the payload in base64url;
    the clock of the examples reads 1700000000000 ms. *)

Definition ada : FlaskUser :=
  {| id := "u-1"; name := None; first_name := "Ada"; last_name := "Byron";
     email := "ada@example.org"; role := candidate |}.

Definition clock : Z := 1700000000000.

(** Payload [{ exp: 1700003600 }]: one hour after [clock]. *)
Definition token_1h : string :=
  "eyJhbGciOiJIUzI1NiIsInR5cCI6IkpXVCJ9.eyJleHAiOjE3MDAwMDM2MDB9.c2ln".

(** Payload [{ exp: 1700007200 }]: two hours after [clock]. *)
Definition token_2h : string :=
  "eyJhbGciOiJIUzI1NiIsInR5cCI6IkpXVCJ9.eyJleHAiOjE3MDAwMDcyMDB9.c2ln".

(** Payload [{ exp: 1700000060 }]: one minute after [clock]. *)
Definition token_1min : string :=
  "eyJhbGciOiJIUzI1NiIsInR5cCI6IkpXVCJ9.eyJleHAiOjE3MDAwMDAwNjB9.c2ln".

(** Payload [{ exp: 1600000000 }]: long before [clock]. *)
Definition token_past : string :=
  "eyJhbGciOiJIUzI1NiIsInR5cCI6IkpXVCJ9.eyJleHAiOjE2MDAwMDAwMDB9.c2ln".

(** Payload [{ sub: '42' }]: no [exp]. *)
Definition token_no_exp : string :=
  "eyJhbGciOiJIUzI1NiIsInR5cCI6IkpXVCJ9.eyJzdWIiOiI0MiJ9.c2ln".

(** Not a JWT: no second segment. *)
Definition token_opaque : string := "opaque-token".

(** Payload [{ exp: 0 }]. *)
Definition token_exp_zero : string :=
  "eyJhbGciOiJIUzI1NiIsInR5cCI6IkpXVCJ9.eyJleHAiOjB9.c2ln".

(** Payload [{ exp: 'soon' }]. *)
Definition token_exp_text : string :=
  "eyJhbGciOiJIUzI1NiIsInR5cCI6IkpXVCJ9.eyJleHAiOiJzb29uIn0.c2ln".

(** The header segment of the example tokens. *)
Definition header_hs256 : string := "eyJhbGciOiJIUzI1NiIsInR5cCI6IkpXVCJ9".

(** Payload [{ sub: '?>?>?>', exp: 1700003600 }] in base64url: it uses
    both URL-safe characters. *)
Definition payload_urlsafe : string :=
  "eyJzdWIiOiI_Pj8-Pz4iLCJleHAiOjE3MDAwMDM2MDB9".

(** The same payload in the standard alphabet of base64. *)
Definition payload_standard : string :=
  "eyJzdWIiOiI/Pj8+Pz4iLCJleHAiOjE3MDAwMDM2MDB9".

(** Payload [{ exp: { toString: 0 } }]: an [exp] without a primitive
    value. *)
Definition token_exp_object : string :=
  "eyJhbGciOiJIUzI1NiIsInR5cCI6IkpXVCJ9.eyJleHAiOnsidG9TdHJpbmciOjB9fQ.c2ln".

(** A successful login answer. *)
Definition login_ok (token : string) : LoginResp :=
  LResp (Some {| login_token := token; login_user := Some ada |}) None.

(** ** What the components read from the hook *)

Definition UserRole_eqb (a b : UserRole) : bool :=
  match a, b with
  | candidate, candidate => true
  | recruiter, recruiter => true
  | _, _ => false
  end.

(** [authState.role === x]. *)
Definition role_is (x : UserRole) (a : AuthState) : bool :=
  match auth_role a with
  | Some y => UserRole_eqb y x
  | None => false
  end.

(** [isCandidate] and [isRecruiter] of the value [useAuth] returns (lines
    273-274). *)
Definition isCandidate (a : AuthState) : bool := role_is candidate a.

Definition isRecruiter (a : AuthState) : bool := role_is recruiter a.

(** The effect of [useRequireAuth(requiredRole)] (lines 282-290): the route
    it navigates to, if any. *)
Definition useRequireAuth (requiredRole : option UserRole) (a : AuthState)
    : option string :=
  if loading a then None
  else
    match user a with
    | None => Some "/auth"
    | Some _ =>
        match requiredRole with
        | Some wanted => if role_is wanted a then None else Some "/"
        | None => None
        end
    end.

(** [getDisplayName] of the header (components/Header.tsx, lines 19-27):
    the full name when both parts are non-empty, else the part of the
    e-mail address before the first [@], else ['Profile']. *)
Definition getDisplayName (u : FlaskUser) : string :=
  if truthy_string (first_name u) && truthy_string (last_name u) then
    String.append (first_name u) (String.append " " (last_name u))
  else
    match split "@" (email u) !! 0%nat with
    | Some local =>
        if truthy_string local then local else "Profile"
    | None => "Profile"
    end.

(** What the login branch of [handleSubmit] does with the result of
    [signIn] (pages/Auth.tsx, lines 36-50 and 70-72). *)
Inductive AuthPageOutcome : Type :=
| ShowError (msg : string)
| GoToJobs.

Definition handleSubmit_login (res : SignInResult) : AuthPageOutcome :=
  match res with
  | SignInRejected => ShowError "An unexpected error occurred"
  | SignInReturn u err =>
      match (if truthy_opt err then err else None), u with
      | Some msg, _ => ShowError msg
      | None, Some _ => GoToJobs
      | None, None => ShowError "Sign in failed. Please try again."
      end
  end.

(** ** The profile endpoint (lib/api.ts) *)

(** [interface ApiResponse<T>]. *)
Record ApiResponse (T : Type) : Type := {
  api_data : option T;
  api_error : option string
}.
Arguments api_data {T} _.
Arguments api_error {T} _.

(** [interface ProtectedResponse]. *)
Record ProtectedResponse : Type := {
  prot_message : string;
  user_id : string;
  prot_email : string
}.

(** [Omit<FlaskUser, 'email'>], the row of [/auth/profile/:id]. *)
Record ProfileRow : Type := {
  row_id : string;
  row_name : option string;
  row_first_name : string;
  row_last_name : string;
  row_role : UserRole
}.

(** [e || fallback] on an error message. *)
Definition error_or (e : option string) (fallback : string) : string :=
  match e with
  | Some msg => if truthy_string msg then msg else fallback
  | None => fallback
  end.

(** [getMyProfile()] (lines 782-814 of the API client): [validation] is
    the answer of [apiCall('/auth/protected')], [profile] the answer of
    [apiCall] for the path of the second call.  The result is paired with
    the paths called.  [apiCall] catches every exception, so
    [getMyProfile] throws none. *)
Definition getMyProfile (validation : ApiResponse ProtectedResponse)
    (profile : string -> ApiResponse ProfileRow)
    : ProfileResp * list string :=
  match (if truthy_opt (api_error validation) then None
         else api_data validation) with
  | None =>
      (PResp None
         (Some (error_or (api_error validation) "Token validation failed.")),
       ["/auth/protected"])
  | Some protected =>
      let path := String.append "/auth/profile/" (user_id protected) in
      let profileResult := profile path in
      match (if truthy_opt (api_error profileResult) then None
             else api_data profileResult) with
      | None =>
          (PResp None
             (Some (error_or (api_error profileResult)
                      "Failed to fetch user profile data.")),
           ["/auth/protected"; path])
      | Some profileData =>
          (PResp
             (Some {| id := row_id profileData; name := None;
                      first_name := row_first_name profileData;
                      last_name := row_last_name profileData;
                      email := prot_email protected;
                      role := row_role profileData |})
             None,
           ["/auth/protected"; path])
      end
  end.

(** ** Invariants of the reachable states *)

(** The identifiers of the suspended operations are below the next one
    and name one operation each. *)
Definition tasks_wf (st : State) : Prop :=
  (∀ i k, (i, k) ∈ tasks st → (i < next_task st)%nat) ∧
  (∀ i k k', (i, k) ∈ tasks st → (i, k') ∈ tasks st → k = k').

(** The identifiers of timers are below the next one, and a variable that
    holds the identifier of a pending timer is the [refreshTimer] of the
    render that armed it. *)
Definition timer_ids_wf (st : State) : Prop :=
  (∀ t, t ∈ timers st → (tm_id t < next_timer st)%nat) ∧
  (∀ r i, cells st !! r = Some (Some i) → (i < next_timer st)%nat) ∧
  (∀ t r, t ∈ timers st → cells st !! r = Some (Some (tm_id t)) →
          r = tm_render t).

(** A suspended operation that belongs to [checkLocalSession]. *)
Definition is_boot (k : Kont) : bool :=
  match k with
  | KBootProfile _ => true
  | KRefreshSession _ FromBoot => true
  | KRefreshProfile _ _ FromBoot => true
  | _ => false
  end.

Definition boot_pending (st : State) : Prop :=
  ∃ i k, (i, k) ∈ tasks st ∧ is_boot k = true.

(** The state holds no user, no session and no role, or all three, with
    the role of the user. *)
Definition auth_coherent (a : AuthState) : Prop :=
  (user a = None ∧ session a = None ∧ auth_role a = None) ∨
  (∃ u s, user a = Some u ∧ session a = Some s ∧
          auth_role a = Some (role u)).

(** Whether a character occurs in a string. *)
Fixpoint occurs (c : ascii) (s : string) : bool :=
  match s with
  | EmptyString => false
  | String c' rest => Ascii.eqb c' c || occurs c rest
  end.

(** [header.payload.signature]. *)
Definition jwt_of (header payload signature : string) : string :=
  String.append header
    (String.append "." (String.append payload (String.append "." signature))).

(** The base64url alphabet against the standard one (RFC 4648, section
    5): [-] stands for [+] and [_] for [/], every other character for
    itself. *)
Definition standard_char (c : ascii) : ascii :=
  if Ascii.eqb c "-" then "+"%char
  else if Ascii.eqb c "_" then "/"%char
  else c.

(** [q] is the spelling of [p] in the standard alphabet: the same length,
    and character by character the standard one. *)
Fixpoint standard_spelling (p q : string) : bool :=
  match p, q with
  | EmptyString, EmptyString => true
  | String c p', String d q' =>
      Ascii.eqb d (standard_char c) && standard_spelling p' q'
  | _, _ => false
  end.

(** * Properties *)

(** ** What the primitives leave alone *)

Create Rewrite HintDb hook.

Lemma clear_refreshTimer_auth r st :
  auth (clear_refreshTimer r st) = auth st.
Proof. unfold clear_refreshTimer. destruct (refreshTimer r st); reflexivity. Qed.

Lemma clear_refreshTimer_storage r st :
  storage (clear_refreshTimer r st) = storage st.
Proof. unfold clear_refreshTimer. destruct (refreshTimer r st); reflexivity. Qed.

Lemma clear_refreshTimer_calls r st :
  calls (clear_refreshTimer r st) = calls st.
Proof. unfold clear_refreshTimer. destruct (refreshTimer r st); reflexivity. Qed.

Lemma clear_refreshTimer_tasks r st :
  tasks (clear_refreshTimer r st) = tasks st.
Proof. unfold clear_refreshTimer. destruct (refreshTimer r st); reflexivity. Qed.

Lemma clear_refreshTimer_next_task r st :
  next_task (clear_refreshTimer r st) = next_task st.
Proof. unfold clear_refreshTimer. destruct (refreshTimer r st); reflexivity. Qed.

Lemma clear_refreshTimer_next_timer r st :
  next_timer (clear_refreshTimer r st) = next_timer st.
Proof. unfold clear_refreshTimer. destruct (refreshTimer r st); reflexivity. Qed.

(** With [refreshTimer] at [null] the guard does nothing. *)
Lemma clear_refreshTimer_idle r st :
  refreshTimer r st = None → clear_refreshTimer r st = st.
Proof. intros E. unfold clear_refreshTimer. rewrite E. reflexivity. Qed.

(** After the guard of lines 99-102 the variable is [null]. *)
Lemma clear_refreshTimer_null r st :
  refreshTimer r (clear_refreshTimer r st) = None.
Proof.
  unfold clear_refreshTimer.
  destruct (refreshTimer r st) as [i|] eqn:E; [|exact E].
  unfold refreshTimer in *. simpl.
  destruct (cells st !! r) as [c|] eqn:Er; [|discriminate].
  rewrite list_lookup_insert_eq; [reflexivity|].
  apply lookup_lt_Some in Er. exact Er.
Qed.

(** The guard cancels nothing but pending timers: the ones left were
    pending before. *)
Lemma clear_refreshTimer_timers_incl r st t :
  t ∈ timers (clear_refreshTimer r st) → t ∈ timers st.
Proof.
  unfold clear_refreshTimer.
  destruct (refreshTimer r st); simpl; [|tauto].
  unfold clear_timer. rewrite list_elem_of_filter. tauto.
Qed.

#[global] Hint Rewrite clear_refreshTimer_auth clear_refreshTimer_storage
  clear_refreshTimer_calls clear_refreshTimer_tasks
  clear_refreshTimer_next_task clear_refreshTimer_next_timer : hook.

(** ** The branches of the schedule check *)

Section Properties.
Context `{Platform}.

Lemma REFRESH_BUFFER_value : REFRESH_BUFFER = 300000.
Proof. reflexivity. Qed.

(** A token with an [exp] claim is a non-empty string that decodes to a
    truthy value. *)
Lemma exp_claim_token token e :
  get_exp (decodeJwt token) = Some e →
  truthy_string token = true ∧ truthy (decodeJwt token) = true.
Proof.
  intros He. split.
  - destruct token; [|reflexivity]. discriminate He.
  - destruct (decodeJwt token); try discriminate He. reflexivity.
Qed.

(** Lines 104-108: nothing to decode, or no truthy [exp]. *)
Lemma schedule_without_expiry r it now st :
  match js_or it (storage st) with
  | Some token =>
      match get_exp (decodeJwt token) with
      | Some e => truthy e = false
      | None => True
      end
  | None => True
  end →
  checkAndScheduleRefresh r it now st = clear_refreshTimer r st.
Proof.
  intros Hno. unfold checkAndScheduleRefresh.
  rewrite clear_refreshTimer_storage.
  destruct (js_or it (storage st)) as [token|]; [|reflexivity].
  destruct (truthy_string token); [|reflexivity]. simpl.
  destruct (truthy (decodeJwt token)); [|reflexivity]. simpl.
  destruct (get_exp (decodeJwt token)) as [e|]; [|reflexivity].
  rewrite Hno. reflexivity.
Qed.

(** Lines 110-153 for a numeric, non-zero [exp]. *)
Lemma schedule_with_expiry r it now st token e :
  js_or it (storage st) = Some token →
  get_exp (decodeJwt token) = Some (JNum e) →
  e ≠ 0 →
  checkAndScheduleRefresh r it now st =
    if e * 1000 - now <=? 0 then teardown (clear_refreshTimer r st)
    else if e * 1000 - now >? REFRESH_BUFFER then
      arm_timer r (e * 1000 - now - REFRESH_BUFFER) (clear_refreshTimer r st)
    else refreshAccessToken r FromSchedule (clear_refreshTimer r st).
Proof.
  intros Htok He Hnz. unfold checkAndScheduleRefresh.
  rewrite clear_refreshTimer_storage, Htok.
  destruct (exp_claim_token _ _ He) as [-> ->]. simpl.
  rewrite He. simpl.
  destruct (Z.eqb_spec e 0) as [E0|_]; [contradiction|]. reflexivity.
Qed.

(** Line 111 throws on no token without a truthy [exp], and on none with
    a numeric one. *)
Lemma schedule_throws_without_expiry it st :
  match js_or it (storage st) with
  | Some token =>
      match get_exp (decodeJwt token) with
      | Some e => truthy e = false
      | None => True
      end
  | None => True
  end →
  schedule_throws it st = false.
Proof.
  intros Hno. unfold schedule_throws.
  destruct (js_or it (storage st)) as [token|]; [|reflexivity].
  destruct (truthy_string token); [|reflexivity]. simpl.
  destruct (truthy (decodeJwt token)); [|reflexivity]. simpl.
  destruct (get_exp (decodeJwt token)) as [e|]; [|reflexivity].
  rewrite Hno. reflexivity.
Qed.

Lemma schedule_throws_with_expiry it st token e :
  js_or it (storage st) = Some token →
  get_exp (decodeJwt token) = Some (JNum e) →
  schedule_throws it st = false.
Proof.
  intros Htok He. unfold schedule_throws. rewrite Htok.
  destruct (exp_claim_token _ _ He) as [-> ->]. simpl.
  rewrite He. simpl. destruct (negb (e =? 0)); reflexivity.
Qed.

(** Inside the [try], a call that does not throw is the call. *)
Lemma schedule_in_try_returns r it now st :
  schedule_throws it st = false →
  schedule_in_try r it now st = checkAndScheduleRefresh r it now st.
Proof. intros Hq. unfold schedule_in_try. rewrite Hq. reflexivity. Qed.

(** ** The schedule check on one token *)

(** C9.  A token whose expiry is in the future but at most the five-minute
    buffer away: the schedule check calls the refresh at once (one more
    call to [refreshSession], awaited by the schedule check) and arms no
    timer: no timer identifier is consumed, the timers left are the ones
    that were pending, and [refreshTimer] is [null]. *)
Theorem expiring_soon_refreshes_immediately
    (r : nat) (it : option string) (now : Z) (st : State) (token : string)
    (e : Z) :
  js_or it (storage st) = Some token →
  get_exp (decodeJwt token) = Some (JNum e) →
  0 <= now →
  0 < e * 1000 - now →
  e * 1000 - now <= REFRESH_BUFFER →
  let st' := checkAndScheduleRefresh r it now st in
  calls st' = calls st ++ [CallRefresh] ∧
  tasks st' = tasks st ++ [(next_task st, KRefreshSession r FromSchedule)] ∧
  next_timer st' = next_timer st ∧
  timers st' = timers (clear_refreshTimer r st) ∧
  (∀ t, t ∈ timers st' → t ∈ timers st) ∧
  refreshTimer r st' = None ∧
  auth st' = auth st ∧
  storage st' = storage st.
Proof.
  intros Htok He Hnow Hpos Hsoon st'. subst st'.
  rewrite (schedule_with_expiry r it now st token e Htok He) by lia.
  destruct (Z.leb_spec (e * 1000 - now) 0) as [Hle|_]; [lia|].
  destruct (Z.gtb_spec (e * 1000 - now) REFRESH_BUFFER) as [Hgt|_]; [lia|].
  unfold refreshAccessToken, await; simpl.
  autorewrite with hook.
  repeat split; try reflexivity.
  - intros t. apply clear_refreshTimer_timers_incl.
  - apply clear_refreshTimer_null.
Qed.

(** C10.  A token whose payload segment is missing or does not decode
    makes [decodeJwt] return [null] (it never throws: the decoder is a
    total function); on such a token, and on one whose decoded payload has
    no [exp], the schedule check returns after its guard: the state and the
    persisted token are as they were, no call is made, nothing is left
    suspended, and no timer is armed. *)
Theorem undecodable_token_is_left_alone
    (r : nat) (it : option string) (now : Z) (st : State) (token : string) :
  js_or it (storage st) = Some token →
  decode_payload token = None ∨ get_exp (decodeJwt token) = None →
  (decode_payload token = None → decodeJwt token = JNull) ∧
  let st' := checkAndScheduleRefresh r it now st in
  auth st' = auth st ∧
  storage st' = storage st ∧
  calls st' = calls st ∧
  tasks st' = tasks st ∧
  next_timer st' = next_timer st ∧
  timers st' = timers (clear_refreshTimer r st) ∧
  (∀ t, t ∈ timers st' → t ∈ timers st) ∧
  refreshTimer r st' = None.
Proof.
  intros Htok Hbad. split.
  - intros Hd. unfold decodeJwt. rewrite Hd. reflexivity.
  - assert (Hnone : get_exp (decodeJwt token) = None).
    { destruct Hbad as [Hd|Hd]; [|exact Hd].
      unfold decodeJwt. rewrite Hd. reflexivity. }
    intros st'. subst st'.
    rewrite schedule_without_expiry by (rewrite Htok, Hnone; exact I).
    autorewrite with hook.
    repeat split; try reflexivity.
    + intros t. apply clear_refreshTimer_timers_incl.
    + apply clear_refreshTimer_null.
Qed.

(** ** Bootstrap *)

(** Bootstrap up to its [await], on a non-empty persisted token. *)
Lemma mount_with_token token :
  truthy_string token = true →
  step (init (Some token)) EvMount =
    await CallProfile (KBootProfile token)
      (set_auth {| user := None; session := None; auth_role := None;
                   loading := true |}
         (set_cells [None] (init (Some token)))).
Proof.
  intros Htr. simpl. unfold checkLocalSession. simpl. rewrite Htr.
  reflexivity.
Qed.

(** C1.  Bootstrap on a persisted token that the profile check accepts and
    whose expiry is more than the five-minute buffer ahead: the state is
    the signed-in one, nothing is left suspended, and one timer is pending,
    with delay [exp * 1000 - now - REFRESH_BUFFER]; when that timer fires,
    one call to [refreshSession] is made and no timer is pending. *)
Theorem bootstrap_schedules_refresh
    (token : string) (u : FlaskUser) (err : option string) (e now : Z) :
  get_exp (decodeJwt token) = Some (JNum e) →
  0 <= now →
  e * 1000 - now > REFRESH_BUFFER →
  let st :=
    run (init (Some token)) [EvMount; EvProfile 0 (PResp (Some u) err) now] in
  auth st = signed_in u {| access_token := token |} ∧
  storage st = Some token ∧
  tasks st = [] ∧
  timers st =
    [{| tm_id := 1; tm_delay := e * 1000 - now - REFRESH_BUFFER;
        tm_render := 0 |}] ∧
  let st' := step st (EvFire 1) in
  calls st' = calls st ++ [CallRefresh] ∧
  tasks st' = [(1%nat, KRefreshSession 0 FromSchedule)] ∧
  timers st' = [].
Proof.
  intros He Hnow Hfar.
  destruct (exp_claim_token _ _ He) as [Htr _].
  pose proof REFRESH_BUFFER_value as HB.
  unfold run. cbn [fold_left]. rewrite (mount_with_token token Htr).
  cbn [step await tasks find_task Nat.eqb next_task resume_boot_profile
       set_auth set_cells init app].
  rewrite schedule_in_try_returns by
    (apply (schedule_throws_with_expiry _ _ token e);
     [unfold js_or; simpl; rewrite Htr; reflexivity | exact He]).
  rewrite (schedule_with_expiry 0 (Some token) now _ token e); [|
    unfold js_or; simpl; rewrite Htr; reflexivity | exact He | lia].
  destruct (Z.leb_spec (e * 1000 - now) 0) as [Hle|_]; [lia|].
  destruct (Z.gtb_spec (e * 1000 - now) REFRESH_BUFFER) as [_|Hgt]; [|lia].
  repeat split.
Qed.

(** ** Refresh *)

(** The failure path of [refreshAccessToken], for either awaiter. *)
Lemma resume_refresh_session_failed resp r c now st :
  refresh_failed resp = true →
  resume_refresh_session resp r c now st =
    after_refresh false r c now (teardown st).
Proof.
  intros Hfail. unfold resume_refresh_session.
  destruct resp as [|[s|] [m|]]; try reflexivity.
  simpl in Hfail. apply negb_true_iff in Hfail. rewrite Hfail. reflexivity.
Qed.

(** C2.  Whatever the state in which the answer arrives and whoever awaits
    the refresh, a failed [refreshSession] (an exception, an error, no
    session or no access token) leaves the signed-out state and an empty
    token slot, and is not retried: no call is made, no operation is left
    suspended in its place, and no timer is armed. *)
Theorem failed_refresh_is_terminal
    (st : State) (i r : nat) (c : Caller) (resp : RefreshResp) (now : Z) :
  find_task i (tasks st) = Some (KRefreshSession r c) →
  refresh_failed resp = true →
  let st' := step st (EvRefresh i resp now) in
  auth st' = signed_out ∧
  storage st' = None ∧
  calls st' = calls st ∧
  tasks st' = remove_task i (tasks st) ∧
  timers st' = timers st ∧
  next_timer st' = next_timer st.
Proof.
  intros Hk Hfail. cbn [step]. rewrite Hk.
  rewrite resume_refresh_session_failed by exact Hfail.
  destruct c; repeat split.
Qed.

(** C3, as amended.  Bootstrap on a persisted token whose (non-zero)
    expiry is already past.  If the profile check accepts the token, the
    schedule check tears the session down: signed-out state, empty token
    slot, no timer, nothing suspended.  If the profile check throws or
    answers with neither data nor error, the same.  If it answers with an
    error, one refresh is attempted, and if that refresh fails the outcome
    is again the signed-out state with no timer.  (A refresh that succeeds
    continues with the new token.) *)
Theorem bootstrap_expired_token
    (token : string) (e now : Z) :
  get_exp (decodeJwt token) = Some (JNum e) →
  e ≠ 0 →
  e * 1000 - now <= 0 →
  (∀ u err,
     let st :=
       run (init (Some token))
         [EvMount; EvProfile 0 (PResp (Some u) err) now] in
     auth st = signed_out ∧ storage st = None ∧ timers st = [] ∧
     tasks st = []) ∧
  (∀ presp,
     presp = PThrow ∨
     (∃ err, presp = PResp None err ∧ truthy_opt err = false) →
     let st := run (init (Some token)) [EvMount; EvProfile 0 presp now] in
     auth st = signed_out ∧ storage st = None ∧ timers st = [] ∧
     tasks st = []) ∧
  (∀ err resp now',
     truthy_opt err = true →
     refresh_failed resp = true →
     let st1 := run (init (Some token)) [EvMount; EvProfile 0 (PResp None err) now] in
     let st := step st1 (EvRefresh 1 resp now') in
     calls st1 = [CallProfile; CallRefresh] ∧
     auth st = signed_out ∧ storage st = None ∧ timers st = [] ∧
     tasks st = [] ∧ calls st = calls st1).
Proof.
  intros He Hnz Hpast.
  destruct (exp_claim_token _ _ He) as [Htr _].
  pose proof (mount_with_token token Htr) as Hmount.
  unfold run. cbn [fold_left]. rewrite Hmount.
  split; [|split].
  - intros u err.
    cbn [step await tasks find_task Nat.eqb next_task resume_boot_profile
         set_auth set_cells init app].
    rewrite schedule_in_try_returns by
      (apply (schedule_throws_with_expiry _ _ token e);
       [unfold js_or; simpl; rewrite Htr; reflexivity | exact He]).
    rewrite (schedule_with_expiry 0 (Some token) now _ token e); [|
      unfold js_or; simpl; rewrite Htr; reflexivity | exact He | exact Hnz].
    destruct (Z.leb_spec (e * 1000 - now) 0) as [_|Hgt]; [|lia].
    repeat split.
  - intros presp [->|[err [-> Herr]]].
    + repeat split.
    + cbn [step await tasks find_task Nat.eqb next_task resume_boot_profile
           set_auth set_cells init app].
      rewrite Herr. repeat split.
  - intros err resp now' Herr Hfail.
    cbn [step await tasks find_task Nat.eqb next_task resume_boot_profile
         set_auth set_cells init app].
    rewrite Herr.
    split; [reflexivity|].
    unfold refreshAccessToken. simpl.
    rewrite resume_refresh_session_failed by exact Hfail.
    repeat split.
Qed.

(** ** Sign-in *)

Lemma clear_refreshTimer_set_auth r a st :
  clear_refreshTimer r (set_auth a st) = set_auth a (clear_refreshTimer r st).
Proof.
  unfold clear_refreshTimer, refreshTimer. simpl.
  destruct (cells st !! r) as [[i|]|]; reflexivity.
Qed.

Lemma clear_refreshTimer_set_storage r slot st :
  clear_refreshTimer r (set_storage slot st) =
  set_storage slot (clear_refreshTimer r st).
Proof.
  unfold clear_refreshTimer, refreshTimer. simpl.
  destruct (cells st !! r) as [[i|]|]; reflexivity.
Qed.

Lemma clear_refreshTimer_no_timers r st :
  timers st = [] → timers (clear_refreshTimer r st) = [].
Proof.
  intros Ht. unfold clear_refreshTimer.
  destruct (refreshTimer r st); simpl; rewrite Ht; reflexivity.
Qed.

(** C6.  When the login call returns an error, or a payload without token
    or without user, [signIn] resolves to a non-empty error string and
    changes nothing: not before its [await] (the call is only issued), and
    not after it, in whatever state the answer arrives. *)
Theorem failed_sign_in_changes_nothing
    (r : nat) (email password : string) (resp : LoginResp) (now : Z) :
  login_failed resp = true →
  (∀ st,
     let st1 := signIn_start r email password st in
     auth st1 = auth st ∧ storage st1 = storage st ∧
     cells st1 = cells st ∧ timers st1 = timers st) ∧
  (∃ msg,
     truthy_string msg = true ∧
     ∀ st, resume_signIn resp r now st = (st, SignInReturn None (Some msg))) ∧
  (∀ st i,
     find_task i (tasks st) = Some (KSignIn r) →
     let st' := step st (EvLogin i resp now) in
     auth st' = auth st ∧ storage st' = storage st ∧
     cells st' = cells st ∧ timers st' = timers st ∧
     calls st' = calls st).
Proof.
  intros Hfail.
  assert (Hres : ∃ msg, truthy_string msg = true ∧
            ∀ st, resume_signIn resp r now st =
                  (st, SignInReturn None (Some msg))).
  { destruct resp as [|data err]; [discriminate Hfail|].
    unfold resume_signIn. simpl in Hfail.
    destruct err as [m|]; simpl in *.
    - destruct (truthy_string m) eqn:Em.
      + exists m. split; [exact Em|]. reflexivity.
      + exists missing_token_or_user. split; [reflexivity|]. intros st.
        destruct data as [[token [u|]]|]; try reflexivity.
        simpl in Hfail. rewrite orb_false_r in Hfail.
        apply negb_true_iff in Hfail. rewrite Hfail. reflexivity.
    - exists missing_token_or_user. split; [reflexivity|]. intros st.
      destruct data as [[token [u|]]|]; try reflexivity.
      simpl in Hfail. rewrite orb_false_r in Hfail.
      apply negb_true_iff in Hfail. rewrite Hfail. reflexivity. }
  split; [|split].
  - intros st. repeat split.
  - exact Hres.
  - intros st i Hk. cbn [step]. rewrite Hk.
    destruct Hres as [msg [_ Hres]]. rewrite Hres. repeat split.
Qed.


(** ** Where the user of the state comes from *)

(** The schedule check either keeps the state or resets it. *)
Lemma schedule_auth r it now st :
  auth (checkAndScheduleRefresh r it now st) = auth st ∨
  auth (checkAndScheduleRefresh r it now st) = signed_out.
Proof.
  unfold checkAndScheduleRefresh.
  repeat match goal with
         | |- context [match ?x with _ => _ end] => destruct x
         end;
    simpl; autorewrite with hook; auto.
Qed.

Lemma schedule_in_try_auth r it now st :
  auth (schedule_in_try r it now st) = auth st ∨
  auth (schedule_in_try r it now st) = signed_out.
Proof.
  unfold schedule_in_try. destruct (schedule_throws it st).
  - right. reflexivity.
  - apply schedule_auth.
Qed.

Lemma after_refresh_auth b r c now st :
  auth (after_refresh b r c now st) = auth st ∨
  auth (after_refresh b r c now st) = signed_out.
Proof.
  unfold after_refresh.
  destruct c, b; auto using schedule_auth, schedule_in_try_auth.
Qed.

Lemma run_snoc st evs e : run st (evs ++ [e]) = step (run st evs) e.
Proof. unfold run. rewrite fold_left_app. reflexivity. Qed.

#[local] Ltac auth_reset := left; reflexivity.

#[local] Ltac auth_kept := right; left; repeat split; reflexivity.

#[local] Ltac auth_after_refresh_failed :=
  match goal with
  | |- context [after_refresh false ?r ?c ?n (teardown ?s)] =>
      destruct (after_refresh_auth false r c n (teardown s)) as [Ha|Ha];
      left; rewrite Ha; reflexivity
  end.

(** One callback leaves the state without a user, keeps the user, the
    session and the role it finds, or signs in the user of an answer it
    accepts, with the session of that answer. *)
Lemma step_accepts st e :
  user (auth (step st e)) = None ∨
  (user (auth (step st e)) = user (auth st) ∧
   session (auth (step st e)) = session (auth st) ∧
   auth_role (auth (step st e)) = auth_role (auth st)) ∨
  (∃ u s, auth (step st e) = signed_in u s ∧ accepted st e u s).
Proof.
  destruct e as [| |r email password|r|i|i resp now|i resp now|i resp now];
    cbn [step].
  - destruct (cells st); [|auth_kept]. unfold checkLocalSession. simpl.
    destruct (storage st) as [token|]; [destruct (truthy_string token)|];
      first [auth_kept | auth_reset].
  - destruct (cells st); auth_kept.
  - destruct (r <? length (cells st))%nat; auth_kept.
  - destruct (r <? length (cells st))%nat; [auth_reset | auth_kept].
  - destruct (find_timer i (timers st)); auth_kept.
  - destruct (find_task i (tasks st)) as [[token|r c|s r c|r]|] eqn:Hk;
      try auth_kept.
    + unfold resume_boot_profile. destruct resp as [|[u|] err].
      * auth_reset.
      * match goal with
        | |- context [schedule_in_try ?r ?it ?n ?s] =>
            destruct (schedule_in_try_auth r it n s) as [Ha|Ha]
        end.
        -- right. right. exists u, {| access_token := token |}.
           split; [rewrite Ha; reflexivity|].
           unfold accepted. rewrite Hk. split; reflexivity.
        -- left. rewrite Ha. reflexivity.
      * destruct (truthy_opt err); [auth_kept | auth_reset].
    + unfold resume_refresh_profile. destruct resp as [|[u|] err].
      * auth_after_refresh_failed.
      * destruct (truthy_opt err) eqn:Herr; [auth_after_refresh_failed|].
        match goal with
        | |- context [after_refresh true ?r ?c ?n ?s] =>
            destruct (after_refresh_auth true r c n s) as [Ha|Ha]
        end.
        -- right. right. exists u, s.
           split; [rewrite Ha; reflexivity|].
           unfold accepted. rewrite Hk. repeat split. exact Herr.
        -- left. rewrite Ha. reflexivity.
      * auth_after_refresh_failed.
  - destruct (find_task i (tasks st)) as [[token|r c|s r c|r]|];
      try auth_kept.
    unfold resume_refresh_session.
    destruct resp as [|[s|] [m|]]; try auth_after_refresh_failed.
    destruct (truthy_string (access_token s));
      [auth_kept | auth_after_refresh_failed].
  - destruct (find_task i (tasks st)) as [[token|r c|s r c|r]|] eqn:Hk;
      try auth_kept.
    unfold resume_signIn.
    destruct resp as [|data err]; [auth_kept|].
    destruct (truthy_opt err) eqn:Herr; [auth_kept|].
    destruct data as [[token [u|]]|]; try auth_kept.
    destruct (truthy_string token) eqn:Htr; [|auth_kept].
    cbn [fst].
    match goal with
    | |- context [checkAndScheduleRefresh ?r ?it ?n ?s] =>
        destruct (schedule_auth r it n s) as [Ha|Ha]
    end.
    + right. right. exists u, {| access_token := token |}.
      split; [rewrite Ha; reflexivity|].
      unfold accepted. rewrite Hk. repeat split; assumption.
    + left. rewrite Ha. reflexivity.
Qed.

(** C5, as amended.  In every state reached from the initial one,
    whatever the platform decodes, a populated [user] comes with a session
    and with the role of that user, and the three were set from one answer
    of the server that the hook accepted, and have been in the state since
    the callback of that answer: the token of the session is the persisted
    token for which the profile check of bootstrap returned that user, or
    the token freshly issued by a refresh for which the profile fetch then
    returned that user without error, or, for a sign-in (which makes no
    profile fetch), the token that the login call returned with that user
    and without error.  No decoded claim reaches [user], [session] or
    [role]. *)
Theorem user_comes_from_server
    (slot : option string) (evs : list Event) (u : FlaskUser) :
  user (auth (run (init slot) evs)) = Some u →
  ∃ s,
    session (auth (run (init slot) evs)) = Some s ∧
    auth_role (auth (run (init slot) evs)) = Some (role u) ∧
    ∃ evs1 e evs2,
      evs = evs1 ++ e :: evs2 ∧
      accepted (run (init slot) evs1) e u s ∧
      ∀ pre post,
        evs2 = pre ++ post →
        user (auth (run (init slot) (evs1 ++ e :: pre))) = Some u ∧
        session (auth (run (init slot) (evs1 ++ e :: pre))) = Some s.
Proof.
  revert u. induction evs as [|e evs IH] using rev_ind; intros u Hu.
  - discriminate Hu.
  - rewrite run_snoc in *.
    destruct (step_accepts (run (init slot) evs) e)
      as [Hn | [(Hsame & Hsess & Hrole) | (u' & s & Ha & Hacc)]].
    + rewrite Hn in Hu. discriminate Hu.
    + pose proof Hu as Hnow. rewrite Hsame in Hu.
      destruct (IH u Hu)
        as (s & Hs & Hr & evs1 & e0 & evs2 & Hevs & Hacc & Hkept).
      exists s. split; [rewrite Hsess; exact Hs|].
      split; [rewrite Hrole; exact Hr|].
      exists evs1, e0, (evs2 ++ [e]).
      split; [rewrite Hevs, <- app_assoc; reflexivity|].
      split; [exact Hacc|].
      intros pre post Hsplit.
      destruct post as [|x post _] using rev_ind.
      * rewrite app_nil_r in Hsplit. subst pre.
        change (evs1 ++ e0 :: evs2 ++ [e])
          with (evs1 ++ (e0 :: evs2) ++ [e]).
        rewrite app_assoc, <- Hevs, run_snoc.
        split; [exact Hnow|]. rewrite Hsess. exact Hs.
      * rewrite app_assoc in Hsplit. apply app_inj_tail in Hsplit.
        destruct Hsplit as [Hsplit _]. exact (Hkept pre post Hsplit).
    + rewrite Ha in Hu |- *. injection Hu as <-.
      exists s. split; [reflexivity|]. split; [reflexivity|].
      exists evs, e, []. split; [reflexivity|]. split; [exact Hacc|].
      intros pre post Hsplit. symmetry in Hsplit.
      apply app_eq_nil in Hsplit. destruct Hsplit as [-> _].
      rewrite run_snoc, Ha. split; reflexivity.
Qed.

(** ** One timer for each render *)

Lemma find_task_elem i ks k : find_task i ks = Some k → (i, k) ∈ ks.
Proof.
  induction ks as [|[j k'] ks IH]; simpl; [discriminate|].
  destruct (Nat.eqb_spec i j) as [->|_].
  - intros [= ->]. apply elem_of_cons. left. reflexivity.
  - intros Hf. apply elem_of_cons. right. exact (IH Hf).
Qed.

Lemma find_timer_elem i ts t :
  find_timer i ts = Some t → t ∈ ts ∧ tm_id t = i.
Proof.
  induction ts as [|t' ts IH]; simpl; [discriminate|].
  destruct (Nat.eqb_spec i (tm_id t')) as [->|_].
  - intros [= ->]. split; [|reflexivity]. apply elem_of_cons. left.
    reflexivity.
  - intros Hf. destruct (IH Hf) as [Hin Hid]. split; [|exact Hid].
    apply elem_of_cons. right. exact Hin.
Qed.

(** Cancelling a timer leaves no more timers of a render than before. *)
Lemma timers_of_render_clear r i ts :
  (length (timers_of_render r (clear_timer i ts)) <=
   length (timers_of_render r ts))%nat.
Proof.
  unfold timers_of_render, clear_timer.
  rewrite list_filter_filter.
  rewrite (list_filter_iff _ (fun t => tm_id t ≠ i ∧ tm_render t = r))
    by tauto.
  rewrite <- list_filter_filter. apply length_filter.
Qed.

Lemma timers_of_render_none r ts :
  (∀ t, t ∈ ts → tm_render t ≠ r) → timers_of_render r ts = [].
Proof.
  intros Hno. unfold timers_of_render.
  induction ts as [|t ts IH]; [reflexivity|].
  rewrite filter_cons_False.
  - apply IH. intros t' Hin. apply Hno. apply elem_of_cons. right. exact Hin.
  - apply Hno. apply elem_of_cons. left. reflexivity.
Qed.

(** The guard keeps the discipline and leaves render [r] without a pending
    timer. *)
Lemma clear_refreshTimer_owned r st :
  timers_owned st →
  timers_owned (clear_refreshTimer r st) ∧
  (∀ t, t ∈ timers (clear_refreshTimer r st) → tm_render t ≠ r) ∧
  length (cells (clear_refreshTimer r st)) = length (cells st).
Proof.
  intros (Hcell & Hone & Htask). unfold clear_refreshTimer.
  destruct (refreshTimer r st) as [i|] eqn:Er; simpl.
  - assert (Hgone : ∀ t, t ∈ clear_timer i (timers st) → tm_render t ≠ r).
    { intros t Hin Hr. unfold clear_timer in Hin.
      apply list_elem_of_filter in Hin. destruct Hin as [Hne Hin].
      apply Hcell in Hin. unfold refreshTimer in Er.
      rewrite Hr in Hin. rewrite Hin in Er. congruence. }
    split; [|split; [exact Hgone | apply length_insert]].
    split; [|split]; simpl.
    + intros t Hin. rewrite list_lookup_insert_ne by (symmetry; auto).
      apply Hcell. unfold clear_timer in Hin.
      apply list_elem_of_filter in Hin. tauto.
    + intros r'. etransitivity; [apply timers_of_render_clear | apply Hone].
    + intros j k Hin. rewrite length_insert. eauto.
  - split; [split; [|split]; assumption|]. split; [|reflexivity].
    intros t Hin Hr. apply Hcell in Hin. unfold refreshTimer in Er.
    rewrite Hr in Hin. rewrite Hin in Er. discriminate Er.
Qed.

(** Arming through a render that has no pending timer keeps it. *)
Lemma arm_timer_owned r d st :
  timers_owned st →
  (∀ t, t ∈ timers st → tm_render t ≠ r) →
  (r < length (cells st))%nat →
  timers_owned (arm_timer r d st).
Proof.
  intros (Hcell & Hone & Htask) Hno Hr. split; [|split]; simpl.
  - intros t Hin. apply elem_of_app in Hin. destruct Hin as [Hin|Hin].
    + rewrite list_lookup_insert_ne by (symmetry; auto). auto.
    + apply list_elem_of_singleton in Hin. subst t. simpl.
      apply list_lookup_insert_eq. exact Hr.
  - intros r'. unfold timers_of_render. rewrite filter_app, length_app.
    destruct (decide (r' = r)) as [->|Hne].
    + fold (timers_of_render r (timers st)).
      rewrite (timers_of_render_none r (timers st) Hno). simpl.
      pose proof (length_filter (fun t => tm_render t = r)
        [{| tm_id := next_timer st; tm_delay := d; tm_render := r |}]) as Hl.
      simpl in Hl. lia.
    + rewrite filter_cons_False by (simpl; congruence).
      rewrite filter_nil. simpl. rewrite Nat.add_0_r. apply Hone.
  - intros j k Hin. rewrite length_insert. eauto.
Qed.

Lemma set_auth_owned a st : timers_owned st → timers_owned (set_auth a st).
Proof. intros Ho. exact Ho. Qed.

Lemma set_storage_owned slot st :
  timers_owned st → timers_owned (set_storage slot st).
Proof. intros Ho. exact Ho. Qed.

Lemma teardown_owned st : timers_owned st → timers_owned (teardown st).
Proof. intros Ho. exact Ho. Qed.

Lemma await_owned c k st :
  timers_owned st →
  (kont_render k < length (cells st))%nat →
  timers_owned (await c k st).
Proof.
  intros (Hcell & Hone & Htask) Hk. split; [|split]; simpl; auto.
  intros j k' Hin. apply elem_of_app in Hin. destruct Hin as [Hin|Hin].
  - eauto.
  - apply list_elem_of_singleton in Hin. injection Hin as -> ->. exact Hk.
Qed.

Lemma remove_task_owned i st :
  timers_owned st → timers_owned (set_tasks (remove_task i (tasks st)) st).
Proof.
  intros (Hcell & Hone & Htask). split; [|split]; simpl; auto.
  intros j k Hin. unfold remove_task in Hin.
  apply list_elem_of_filter in Hin. destruct Hin as [_ Hin]. eauto.
Qed.

Lemma schedule_owned r it now st :
  timers_owned st →
  (r < length (cells st))%nat →
  timers_owned (checkAndScheduleRefresh r it now st).
Proof.
  intros Ho Hr.
  destruct (clear_refreshTimer_owned r st Ho) as (Hc & Hno & Hlen).
  assert (Hr' : (r < length (cells (clear_refreshTimer r st)))%nat)
    by (rewrite Hlen; exact Hr).
  unfold checkAndScheduleRefresh, refreshAccessToken.
  repeat match goal with
         | |- context [match ?x with _ => _ end] => destruct x
         end;
    first [ exact Hc
          | apply teardown_owned; exact Hc
          | apply arm_timer_owned; assumption
          | apply await_owned; assumption ].
Qed.

Lemma schedule_in_try_owned r it now st :
  timers_owned st →
  (r < length (cells st))%nat →
  timers_owned (schedule_in_try r it now st).
Proof.
  intros Ho Hr. unfold schedule_in_try.
  destruct (schedule_throws it st);
    auto using schedule_owned, teardown_owned.
Qed.

Lemma after_refresh_owned b r c now st :
  timers_owned st →
  (r < length (cells st))%nat →
  timers_owned (after_refresh b r c now st).
Proof.
  intros Ho Hr. unfold after_refresh.
  destruct c, b;
    auto using schedule_owned, schedule_in_try_owned, teardown_owned.
Qed.

(** Every callback keeps the discipline. *)
Lemma step_owned st e : timers_owned st → timers_owned (step st e).
Proof.
  intros Ho.
  destruct e as [| |r email password|r|i|i resp now|i resp now|i resp now];
    cbn [step].
  - destruct (cells st) eqn:Ec; [|exact Ho].
    assert (Ho1 : timers_owned (set_cells [None] st)).
    { destruct Ho as (Hcell & Hone & Htask). split; [|split]; simpl.
      - intros t Hin. apply Hcell in Hin. rewrite Ec in Hin.
        discriminate Hin.
      - exact Hone.
      - intros j k Hin. apply Htask in Hin. rewrite Ec in Hin.
        simpl in Hin. lia. }
    unfold checkLocalSession. simpl.
    destruct (storage st) as [token|];
      [destruct (truthy_string token)|];
      auto using teardown_owned, set_auth_owned.
    apply await_owned; [apply set_auth_owned; exact Ho1 | simpl; lia].
  - destruct (cells st) as [|c0 cs] eqn:Ec; [exact Ho|]. rewrite <- Ec.
    destruct Ho as (Hcell & Hone & Htask).
    split; [|split]; simpl.
    + intros t Hin. pose proof (Hcell t Hin) as Hl.
      rewrite lookup_app_l; [exact Hl|].
      apply lookup_lt_Some in Hl. exact Hl.
    + exact Hone.
    + intros j k Hin. apply Htask in Hin. rewrite length_app. lia.
  - destruct (Nat.ltb_spec r (length (cells st))) as [Hr|_]; [|exact Ho].
    apply await_owned; assumption.
  - destruct (Nat.ltb_spec r (length (cells st))) as [Hr|_]; [|exact Ho].
    simpl. apply set_auth_owned.
    apply (clear_refreshTimer_owned r (set_storage None st)).
    apply set_storage_owned. exact Ho.
  - destruct (find_timer i (timers st)) as [t|] eqn:Et; [|exact Ho].
    apply find_timer_elem in Et. destruct Et as [Hin _].
    destruct Ho as (Hcell & Hone & Htask).
    apply await_owned.
    + split; [|split]; simpl.
      * intros t' Hin'. unfold clear_timer in Hin'.
        apply list_elem_of_filter in Hin'. apply Hcell. tauto.
      * intros r'.
        etransitivity; [apply timers_of_render_clear | apply Hone].
      * exact Htask.
    + simpl. apply Hcell in Hin. apply lookup_lt_Some in Hin. exact Hin.
  - destruct (find_task i (tasks st)) as [k|] eqn:Ek; [|exact Ho].
    apply find_task_elem in Ek.
    pose proof (remove_task_owned i st Ho) as Ho1.
    assert (Hr : (kont_render k < length (cells st))%nat)
      by (destruct Ho as (_ & _ & Htask); eauto).
    destruct k as [token|r c|s r c|r]; try exact Ho; simpl in Hr.
    + unfold resume_boot_profile.
      destruct resp as [|[u|] err]; auto using teardown_owned.
      * apply schedule_in_try_owned;
          [apply set_auth_owned; exact Ho1 | exact Hr].
      * destruct (truthy_opt err); auto using teardown_owned.
        apply await_owned; [exact Ho1 | exact Hr].
    + unfold resume_refresh_profile.
      destruct resp as [|[u|] err];
        try (apply after_refresh_owned;
             [apply teardown_owned; exact Ho1 | exact Hr]).
      destruct (truthy_opt err); apply after_refresh_owned;
        auto using teardown_owned, set_auth_owned.
  - destruct (find_task i (tasks st)) as [k|] eqn:Ek; [|exact Ho].
    apply find_task_elem in Ek.
    pose proof (remove_task_owned i st Ho) as Ho1.
    assert (Hr : (kont_render k < length (cells st))%nat)
      by (destruct Ho as (_ & _ & Htask); eauto).
    destruct k as [token|r c|s r c|r]; try exact Ho; simpl in Hr.
    unfold resume_refresh_session.
    destruct resp as [|[s|] [m|]];
      try (apply after_refresh_owned;
           [apply teardown_owned; exact Ho1 | exact Hr]).
    destruct (truthy_string (access_token s)).
    + apply await_owned; [apply set_storage_owned; exact Ho1 | exact Hr].
    + apply after_refresh_owned;
        [apply teardown_owned; exact Ho1 | exact Hr].
  - destruct (find_task i (tasks st)) as [k|] eqn:Ek; [|exact Ho].
    apply find_task_elem in Ek.
    pose proof (remove_task_owned i st Ho) as Ho1.
    assert (Hr : (kont_render k < length (cells st))%nat)
      by (destruct Ho as (_ & _ & Htask); eauto).
    destruct k as [token|r c|s r c|r]; try exact Ho; simpl in Hr.
    unfold resume_signIn.
    destruct resp as [|data err]; [exact Ho1|].
    destruct (truthy_opt err); [exact Ho1|].
    destruct data as [[token [u|]]|]; try exact Ho1.
    destruct (truthy_string token); [|exact Ho1].
    cbn [fst]. apply schedule_owned; [|exact Hr].
    apply set_auth_owned, set_storage_owned. exact Ho1.
Qed.

(** In every state the hook reaches, each render has at most one pending
    timer, the one its [refreshTimer] holds. *)
Theorem one_timer_per_render (slot : option string) (evs : list Event) :
  timers_owned (run (init slot) evs).
Proof.
  induction evs as [|e evs IH] using rev_ind.
  - split; [|split]; simpl.
    + intros t Hin. apply elem_of_nil in Hin. contradiction.
    + intros r. simpl. lia.
    + intros i k Hin. apply elem_of_nil in Hin. contradiction.
  - rewrite run_snoc. apply step_owned. exact IH.
Qed.

(** The cleanup of the effect cancels the timer of the first render, the
    one its closures can see. *)
Lemma cleanup_own_render (st : State) :
  timers_owned st → timers_of_render 0 (timers (cleanup st)) = [].
Proof.
  intros Ho. unfold cleanup.
  destruct (clear_refreshTimer_owned 0 st Ho) as (_ & Hno & _).
  apply timers_of_render_none. exact Hno.
Qed.

(** [signOut] through the closures of render [r] leaves the signed-out
    state, an empty slot, and no pending timer of render [r]; called again
    it changes nothing. *)
Theorem signOut_own_render (r : nat) (st : State) :
  timers_owned st →
  let st' := fst (signOut r st) in
  snd (signOut r st) = None ∧
  auth st' = signed_out ∧
  storage st' = None ∧
  timers_of_render r (timers st') = [] ∧
  fst (signOut r st') = st'.
Proof.
  intros Ho st'. subst st'. unfold signOut. cbn [fst snd].
  destruct (clear_refreshTimer_owned r (set_storage None st) Ho)
    as (_ & Hno & _).
  set (X := clear_refreshTimer r (set_storage None st)) in *.
  assert (HsX : storage X = None).
  { subst X. rewrite clear_refreshTimer_storage. reflexivity. }
  assert (HrX : refreshTimer r X = None).
  { subst X. apply clear_refreshTimer_null. }
  split; [reflexivity|]. split; [reflexivity|]. split; [exact HsX|].
  split; [apply timers_of_render_none; exact Hno|].
  assert (E1 : set_storage None (set_auth signed_out X) =
               set_auth signed_out X).
  { unfold set_storage, set_auth. simpl. rewrite HsX. reflexivity. }
  rewrite E1. rewrite clear_refreshTimer_idle; [reflexivity|exact HrX].
Qed.
End Properties.

(** * The hook on the reference platform *)

Example decode_token_1h :
  @decodeJwt ref_platform token_1h = JObj [("exp", JNum 1700003600)].
Proof. reflexivity. Qed.

Example decode_token_no_exp :
  @decodeJwt ref_platform token_no_exp = JObj [("sub", JStr "42")].
Proof. reflexivity. Qed.

Example decode_token_opaque : @decodeJwt ref_platform token_opaque = JNull.
Proof. reflexivity. Qed.

(** Bootstrap on a token one minute from expiry (scenario B): the refresh
    is called at once and no timer is armed. *)
Example bootstrap_near_expiry :
  let st :=
    @run ref_platform (init (Some token_1min))
      [EvMount; EvProfile 0 (PResp (Some ada) None) clock] in
  auth st = signed_in ada {| access_token := token_1min |} ∧
  calls st = [CallProfile; CallRefresh] ∧
  tasks st = [(1%nat, KRefreshSession 0 FromSchedule)] ∧
  timers st = [].
Proof. cbv zeta. repeat split. Qed.

(** Bootstrap on a token that is not a JWT but that the profile check
    accepts: signed in, token kept, no refresh scheduled. *)
Example bootstrap_opaque_token :
  let st :=
    @run ref_platform (init (Some token_opaque))
      [EvMount; EvProfile 0 (PResp (Some ada) None) clock] in
  auth st = signed_in ada {| access_token := token_opaque |} ∧
  storage st = Some token_opaque ∧
  calls st = [CallProfile] ∧
  tasks st = [] ∧
  timers st = [].
Proof. cbv zeta. repeat split. Qed.

(** Scenario A: expiry one hour ahead, refresh scheduled 3300 s ahead. *)
Lemma bootstrap_schedules_refresh_witness :
  let st :=
    @run ref_platform (init (Some token_1h))
      [EvMount; EvProfile 0 (PResp (Some ada) None) clock] in
  auth st = signed_in ada {| access_token := token_1h |} ∧
  storage st = Some token_1h ∧
  tasks st = [] ∧
  timers st = [{| tm_id := 1; tm_delay := 3300000; tm_render := 0 |}] ∧
  let st' := @step ref_platform st (EvFire 1) in
  calls st' = calls st ++ [CallRefresh] ∧
  tasks st' = [(1%nat, KRefreshSession 0 FromSchedule)] ∧
  timers st' = [].
Proof.
  apply (@bootstrap_schedules_refresh ref_platform token_1h ada None
           1700003600 clock).
  - reflexivity.
  - unfold clock. lia.
  - unfold clock, REFRESH_BUFFER. lia.
Defined.

Lemma failed_refresh_is_terminal_witness :
  let st :=
    @run ref_platform (init (Some token_1h))
      [EvMount; EvProfile 0 (PResp (Some ada) None) clock; EvFire 1] in
  let st' :=
    @step ref_platform st
      (EvRefresh 1 (RResp None (Some "Invalid Refresh Token")) clock) in
  auth st' = signed_out ∧
  storage st' = None ∧
  calls st' = calls st ∧
  tasks st' = remove_task 1 (tasks st) ∧
  timers st' = timers st ∧
  next_timer st' = next_timer st.
Proof.
  apply (@failed_refresh_is_terminal ref_platform _ 1%nat 0%nat FromSchedule).
  - reflexivity.
  - reflexivity.
Defined.

(** An expired token that the profile check still accepts is dropped by the
    schedule check; one that is rejected, with a failing refresh, too. *)
Lemma bootstrap_expired_token_witness :
  (∀ u err,
     let st :=
       @run ref_platform (init (Some token_past))
         [EvMount; EvProfile 0 (PResp (Some u) err) clock] in
     auth st = signed_out ∧ storage st = None ∧ timers st = [] ∧
     tasks st = []) ∧
  (∀ presp,
     presp = PThrow ∨
     (∃ err, presp = PResp None err ∧ truthy_opt err = false) →
     let st :=
       @run ref_platform (init (Some token_past))
         [EvMount; EvProfile 0 presp clock] in
     auth st = signed_out ∧ storage st = None ∧ timers st = [] ∧
     tasks st = []) ∧
  (∀ err resp now',
     truthy_opt err = true →
     refresh_failed resp = true →
     let st1 :=
       @run ref_platform (init (Some token_past))
         [EvMount; EvProfile 0 (PResp None err) clock] in
     let st := @step ref_platform st1 (EvRefresh 1 resp now') in
     calls st1 = [CallProfile; CallRefresh] ∧
     auth st = signed_out ∧ storage st = None ∧ timers st = [] ∧
     tasks st = [] ∧ calls st = calls st1).
Proof.
  apply (@bootstrap_expired_token ref_platform token_past 1600000000 clock).
  - reflexivity.
  - lia.
  - unfold clock. lia.
Defined.

(** Scenario D: the expired token is rejected by the profile check, the
    refresh mints a new token, the profile check accepts it: bootstrap ends
    signed in, with a timer armed for the new token. *)
Lemma bootstrap_expired_token_recovers :
  get_exp (@decodeJwt ref_platform token_past) = Some (JNum 1600000000) ∧
  1600000000 * 1000 - clock <= 0 ∧
  let st :=
    @run ref_platform (init (Some token_past))
      [EvMount;
       EvProfile 0 (PResp None (Some "Token has expired")) clock;
       EvRefresh 1 (RResp (Some {| access_token := token_2h |}) None) clock;
       EvProfile 2 (PResp (Some ada) None) clock] in
  auth st = signed_in ada {| access_token := token_2h |} ∧
  storage st = Some token_2h ∧
  timers st = [{| tm_id := 1; tm_delay := 6900000; tm_render := 0 |}] ∧
  ¬ (auth st = signed_out ∧ timers st = []).
Proof.
  split; [reflexivity|]. split; [unfold clock; lia|].
  cbv zeta. repeat split; try reflexivity.
  intros [Hauth _]. vm_compute in Hauth. discriminate Hauth.
Qed.

Lemma user_comes_from_server_witness :
  let evs := [EvMount; EvProfile 0 (PResp (Some ada) None) clock] in
  ∃ s,
    session (auth (@run ref_platform (init (Some token_1h)) evs)) = Some s ∧
    auth_role (auth (@run ref_platform (init (Some token_1h)) evs)) =
      Some (role ada) ∧
    ∃ evs1 e evs2,
      evs = evs1 ++ e :: evs2 ∧
      accepted (@run ref_platform (init (Some token_1h)) evs1) e ada s ∧
      ∀ pre post,
        evs2 = pre ++ post →
        user (auth (@run ref_platform (init (Some token_1h))
                      (evs1 ++ e :: pre))) = Some ada ∧
        session (auth (@run ref_platform (init (Some token_1h))
                         (evs1 ++ e :: pre))) = Some s.
Proof.
  apply (@user_comes_from_server ref_platform (Some token_1h)
           [EvMount; EvProfile 0 (PResp (Some ada) None) clock] ada).
  reflexivity.
Defined.

(** A sign-in populates [user] from the login answer; the profile endpoint
    is never called, so the token held was not validated against it. *)
Lemma sign_in_makes_no_profile_call :
  let evs :=
    [EvMount; EvRender; EvSignIn 1 "ada@example.org" "secret";
     EvLogin 0 (login_ok token_1h) clock] in
  let st := @run ref_platform (init None) evs in
  user (auth st) = Some ada ∧
  session (auth st) = Some {| access_token := token_1h |} ∧
  calls st = [CallLogin "ada@example.org" "secret"] ∧
  (CallProfile ∉ calls st) ∧
  ¬ (∃ e, e ∈ evs ∧ served_by_profile e = Some ada).
Proof.
  cbv zeta. repeat split; try reflexivity.
  - intros Hin. apply list_elem_of_singleton in Hin. discriminate Hin.
  - intros [e [Hin He]].
    repeat (apply elem_of_cons in Hin; destruct Hin as [-> | Hin];
            [discriminate He|]).
    apply elem_of_nil in Hin. exact Hin.
Qed.

Lemma failed_sign_in_changes_nothing_witness :
  (∀ st,
     let st1 := signIn_start 1 "ada@example.org" "wrong" st in
     auth st1 = auth st ∧ storage st1 = storage st ∧
     cells st1 = cells st ∧ timers st1 = timers st) ∧
  (∃ msg,
     truthy_string msg = true ∧
     ∀ st,
       @resume_signIn ref_platform
         (LResp None (Some "Invalid login credentials")) 1 clock st =
       (st, SignInReturn None (Some msg))) ∧
  (∀ st i,
     find_task i (tasks st) = Some (KSignIn 1) →
     let st' :=
       @step ref_platform st
         (EvLogin i (LResp None (Some "Invalid login credentials")) clock) in
     auth st' = auth st ∧ storage st' = storage st ∧
     cells st' = cells st ∧ timers st' = timers st ∧
     calls st' = calls st).
Proof.
  apply (@failed_sign_in_changes_nothing ref_platform 1%nat
           "ada@example.org" "wrong"
           (LResp None (Some "Invalid login credentials")) clock).
  reflexivity.
Defined.



(** Scenario B. *)
Lemma expiring_soon_refreshes_immediately_witness :
  let st :=
    set_storage (Some token_1min)
      (@run ref_platform (init None) [EvMount]) in
  let st' := @checkAndScheduleRefresh ref_platform 0 (Some token_1min) clock st in
  calls st' = calls st ++ [CallRefresh] ∧
  tasks st' = tasks st ++ [(next_task st, KRefreshSession 0 FromSchedule)] ∧
  next_timer st' = next_timer st ∧
  timers st' = timers (clear_refreshTimer 0 st) ∧
  (∀ t, t ∈ timers st' → t ∈ timers st) ∧
  refreshTimer 0 st' = None ∧
  auth st' = auth st ∧
  storage st' = storage st.
Proof.
  apply (@expiring_soon_refreshes_immediately ref_platform 0%nat
           (Some token_1min) clock _ token_1min 1700000060).
  - reflexivity.
  - reflexivity.
  - unfold clock. lia.
  - unfold clock. lia.
  - unfold clock, REFRESH_BUFFER. lia.
Defined.

Lemma undecodable_token_is_left_alone_witness :
  let st :=
    @run ref_platform (init (Some token_opaque))
      [EvMount; EvProfile 0 (PResp (Some ada) None) clock] in
  (@decode_payload ref_platform token_opaque = None →
   @decodeJwt ref_platform token_opaque = JNull) ∧
  let st' := @checkAndScheduleRefresh ref_platform 0 None clock st in
  auth st' = auth st ∧
  storage st' = storage st ∧
  calls st' = calls st ∧
  tasks st' = tasks st ∧
  next_timer st' = next_timer st ∧
  timers st' = timers (clear_refreshTimer 0 st) ∧
  (∀ t, t ∈ timers st' → t ∈ timers st) ∧
  refreshTimer 0 st' = None.
Proof.
  apply (@undecodable_token_is_left_alone ref_platform 0%nat None clock _
           token_opaque).
  - reflexivity.
  - left. reflexivity.
Defined.

(** ** The timer variable across renders *)

(** C8.  Bootstrap arms a timer through the [refreshTimer] of the first
    render; the state change re-renders the component, and the [signOut]
    handed out by the new render tests its own [refreshTimer], which is
    [null]: after sign-out, called twice, the state is signed out and the
    token slot empty, but the timer is still pending. *)
Lemma sign_out_leaves_timer_pending :
  let st :=
    @run ref_platform (init (Some token_1h))
      [EvMount; EvProfile 0 (PResp (Some ada) None) clock;
       EvRender; EvSignOut 1; EvSignOut 1] in
  auth st = signed_out ∧
  storage st = None ∧
  cells st = [Some 1%nat; None] ∧
  timers st = [{| tm_id := 1; tm_delay := 3300000; tm_render := 0 |}].
Proof. cbv zeta. repeat split. Qed.

(** C4.  Sign-in, sign-out and sign-in again, each through the closures of
    the latest render: the second sign-in arms a second timer while the
    first is still pending. *)
Lemma two_refresh_timers_pending :
  let st :=
    @run ref_platform (init None)
      [EvMount; EvRender;
       EvSignIn 1 "ada@example.org" "secret";
       EvLogin 0 (login_ok token_1h) clock;
       EvRender; EvSignOut 2; EvRender;
       EvSignIn 3 "ada@example.org" "secret";
       EvLogin 1 (login_ok token_2h) clock] in
  cells st = [None; Some 1%nat; None; Some 2%nat] ∧
  timers st =
    [{| tm_id := 1; tm_delay := 3300000; tm_render := 1 |};
     {| tm_id := 2; tm_delay := 6900000; tm_render := 3 |}] ∧
  length (timers st) = 2%nat.
Proof. cbv zeta. repeat split. Qed.

(** What the timer left by the sign-out of C8 does when it fires: the
    refresh mints a new token, the profile check accepts it, and the hook
    is signed in again with the new token in the slot. *)
Example timer_fires_after_sign_out :
  let st :=
    @run ref_platform (init (Some token_1h))
      [EvMount; EvProfile 0 (PResp (Some ada) None) clock;
       EvRender; EvSignOut 1; EvRender;
       EvFire 1;
       EvRefresh 1 (RResp (Some {| access_token := token_2h |}) None) clock;
       EvProfile 2 (PResp (Some ada) None) clock] in
  auth st = signed_in ada {| access_token := token_2h |} ∧
  storage st = Some token_2h ∧
  timers st = [{| tm_id := 2; tm_delay := 6900000; tm_render := 0 |}].
Proof. cbv zeta. repeat split. Qed.

(** * More of the hook, its collaborators and its callers *)

(** ** Segments of a token *)

Lemma append_cons c s t :
  String.append (String c s) t = String c (String.append s t).
Proof. reflexivity. Qed.

Lemma append_assoc_char cur c s :
  String.append (String.append cur (String c EmptyString)) s =
  String.append cur (String c s).
Proof.
  induction cur as [|c' cur IH]; [reflexivity|].
  rewrite !append_cons, IH. reflexivity.
Qed.

Lemma append_empty_r s : String.append s EmptyString = s.
Proof.
  induction s as [|c s IH]; [reflexivity|]. rewrite append_cons, IH.
  reflexivity.
Qed.

(** Without a separator there is one piece. *)
Lemma split_on_without sep s cur :
  occurs sep s = false → split_on sep s cur = [String.append cur s].
Proof.
  revert cur. induction s as [|c s IH]; intros cur Hno; simpl.
  - rewrite append_empty_r. reflexivity.
  - simpl in Hno. apply orb_false_iff in Hno. destruct Hno as [Hc Hs].
    rewrite Hc. rewrite (IH _ Hs). rewrite append_assoc_char. reflexivity.
Qed.

(** The first piece ends at the first separator. *)
Lemma split_on_first sep h rest cur :
  occurs sep h = false →
  split_on sep (String.append h (String sep rest)) cur =
  String.append cur h :: split_on sep rest EmptyString.
Proof.
  revert cur. induction h as [|c h IH]; intros cur Hno; simpl.
  - rewrite Ascii.eqb_refl. rewrite append_empty_r. reflexivity.
  - simpl in Hno. apply orb_false_iff in Hno. destruct Hno as [Hc Hs].
    rewrite Hc. rewrite (IH _ Hs). rewrite append_assoc_char. reflexivity.
Qed.

(** The first piece holds no separator when the start of it holds none. *)
Lemma split_on_head sep s cur :
  occurs sep cur = false →
  ∃ piece, split_on sep s cur !! 0%nat = Some piece ∧
           occurs sep piece = false.
Proof.
  revert cur. induction s as [|c s IH]; intros cur Hcur; simpl.
  - exists cur. split; [reflexivity|exact Hcur].
  - destruct (Ascii.eqb c sep) eqn:Ec.
    + exists cur. split; [reflexivity|exact Hcur].
    + apply IH. clear IH. induction cur as [|c' cur IHc]; simpl.
      * rewrite Ec. reflexivity.
      * simpl in Hcur. apply orb_false_iff in Hcur. destruct Hcur as [H1 H2].
        rewrite H1. simpl. apply IHc. exact H2.
Qed.

Lemma split_jwt h p sig :
  occurs "." h = false → occurs "." p = false →
  split "." (jwt_of h p sig) !! 1%nat = Some p.
Proof.
  intros Hh Hp. unfold split, jwt_of.
  change (String.append "." (String.append p (String.append "." sig)))
    with (String "." (String.append p (String "." sig))).
  rewrite (split_on_first _ _ _ _ Hh). simpl.
  rewrite (split_on_first _ _ _ _ Hp). reflexivity.
Qed.

Lemma replace_all_keeps_out a b c s :
  Ascii.eqb b c = false → occurs c s = false →
  occurs c (replace_all a b s) = false.
Proof.
  intros Hb. induction s as [|x s IH]; simpl; [reflexivity|].
  intros Hno. apply orb_false_iff in Hno. destruct Hno as [Hx Hs].
  rewrite (IH Hs). destruct (Ascii.eqb x a); [rewrite Hb|rewrite Hx];
    reflexivity.
Qed.

(** Replacing the URL-safe characters twice is replacing them once. *)
Lemma replace_urlsafe_twice s :
  replace_all "_" "/" (replace_all "-" "+"
    (replace_all "_" "/" (replace_all "-" "+" s))) =
  replace_all "_" "/" (replace_all "-" "+" s).
Proof.
  induction s as [|c s IH]; simpl; [reflexivity|]. rewrite IH. f_equal.
  destruct (Ascii.eqb_spec c "-") as [->|Hm]; [reflexivity|].
  destruct (Ascii.eqb_spec c "_") as [->|Hu]; [reflexivity|].
  destruct (Ascii.eqb_spec c "-") as [E|_]; [contradiction|].
  destruct (Ascii.eqb_spec c "_") as [E|_]; [contradiction|]. reflexivity.
Qed.

(** The two replacements of [decodeJwt] write a segment in the standard
    alphabet. *)
Lemma replace_urlsafe_standard p q :
  standard_spelling p q = true →
  replace_all "_" "/" (replace_all "-" "+" p) = q.
Proof.
  revert q. induction p as [|c p IH]; intros [|d q] Hs; simpl in *;
    try discriminate Hs; [reflexivity|].
  apply andb_true_iff in Hs. destruct Hs as [Hc Hs].
  apply Ascii.eqb_eq in Hc. subst d. rewrite (IH _ Hs). f_equal.
  unfold standard_char.
  destruct (Ascii.eqb_spec c "-") as [->|Hm]; reflexivity.
Qed.

Lemma error_or_truthy e fallback :
  truthy_string fallback = true →
  truthy_string (error_or e fallback) = true.
Proof.
  intros Hf. unfold error_or. destruct e as [msg|]; [|exact Hf].
  destruct (truthy_string msg) eqn:Em; [exact Em|exact Hf].
Qed.

Section MoreProperties.
Context `{Platform}.
#[local] Arguments checkAndScheduleRefresh : simpl never.
#[local] Arguments schedule_throws : simpl never.
#[local] Arguments schedule_in_try : simpl never.

Lemma decode_payload_jwt h p sig :
  occurs "." h = false → occurs "." p = false →
  decode_payload (jwt_of h p sig) =
  match atob (replace_all "_" "/" (replace_all "-" "+" p)) with
  | Some text => JSON_parse text
  | None => None
  end.
Proof.
  intros Hh Hp. unfold decode_payload. rewrite (split_jwt h p sig Hh Hp).
  destruct (atob _); reflexivity.
Qed.

(** X1.  [decodeJwt] reads the second segment only: two tokens with the
    same payload segment decode alike, whatever their header and their
    signature (the signature is never looked at). *)
Theorem decodeJwt_reads_payload_segment_only
    (h h' p sig sig' : string) :
  occurs "." h = false → occurs "." h' = false → occurs "." p = false →
  decodeJwt (jwt_of h p sig) = decodeJwt (jwt_of h' p sig').
Proof.
  intros Hh Hh' Hp. unfold decodeJwt.
  rewrite !decode_payload_jwt by assumption. reflexivity.
Qed.

(** X2.  [decodeJwt] hands [atob] the payload segment spelled in the
    standard alphabet of base64: every [-] of the segment written [+],
    every [_] written [/], every other character as it is.  What it returns
    is [JSON.parse] of what [atob] makes of that spelling, or [null] when
    either throws; so a segment and its standard spelling decode alike. *)
Theorem decodeJwt_urlsafe_alphabet (h p q sig : string) :
  occurs "." h = false → occurs "." p = false →
  standard_spelling p q = true →
  decodeJwt (jwt_of h p sig) =
    match atob q with
    | Some text =>
        match JSON_parse text with
        | Some v => v
        | None => JNull
        end
    | None => JNull
    end ∧
  decodeJwt (jwt_of h q sig) = decodeJwt (jwt_of h p sig).
Proof.
  intros Hh Hp Hs.
  pose proof (replace_urlsafe_standard p q Hs) as Hq.
  assert (Hdot : occurs "." q = false).
  { rewrite <- Hq. apply replace_all_keeps_out; [reflexivity|].
    apply replace_all_keeps_out; [reflexivity|exact Hp]. }
  unfold decodeJwt. rewrite !decode_payload_jwt by assumption.
  rewrite <- Hq at 2. rewrite replace_urlsafe_twice. rewrite Hq.
  split; [|reflexivity].
  destruct (atob q); reflexivity.
Qed.

(** X3.  A token without a dot has no payload segment: [decodeJwt] returns
    [null], whatever the platform decoders would make of the string. *)
Theorem decodeJwt_without_dot (token : string) :
  occurs "." token = false → decodeJwt token = JNull.
Proof.
  intros Hno. unfold decodeJwt, decode_payload, split.
  rewrite (split_on_without _ _ _ Hno). reflexivity.
Qed.

(** ** Edge values of the expiry claim *)

(** X4.  An [exp] that is falsy ([0], [''], [false], [null]) counts as no
    [exp]: whatever the clock reads, the schedule check neither tears the
    session down nor refreshes nor arms a timer, so a token with [exp: 0]
    never expires locally. *)
Theorem falsy_expiry_is_no_expiry
    (r : nat) (it : option string) (now : Z) (st : State) (token : string)
    (e : json) :
  js_or it (storage st) = Some token →
  get_exp (decodeJwt token) = Some e →
  truthy e = false →
  let st' := checkAndScheduleRefresh r it now st in
  auth st' = auth st ∧ storage st' = storage st ∧ calls st' = calls st ∧
  tasks st' = tasks st ∧ next_timer st' = next_timer st.
Proof.
  intros Htok He Hfalsy st'. subst st'.
  rewrite schedule_without_expiry by (rewrite Htok, He; exact Hfalsy).
  autorewrite with hook. repeat split.
Qed.

(** X5.  A truthy [exp] that does not convert to a number (NaN) passes
    neither comparison: whatever the clock reads, the schedule check calls
    the refresh at once and arms no timer. *)
Theorem non_numeric_expiry_refreshes_at_once
    (r : nat) (it : option string) (now : Z) (st : State) (token : string)
    (e : json) :
  js_or it (storage st) = Some token →
  get_exp (decodeJwt token) = Some e →
  truthy e = true →
  times_1000 e = IsNaN →
  let st' := checkAndScheduleRefresh r it now st in
  calls st' = calls st ++ [CallRefresh] ∧
  tasks st' = tasks st ++ [(next_task st, KRefreshSession r FromSchedule)] ∧
  next_timer st' = next_timer st ∧
  auth st' = auth st ∧ storage st' = storage st.
Proof.
  intros Htok He Htruthy Hnan st'. subst st'.
  unfold checkAndScheduleRefresh.
  rewrite clear_refreshTimer_storage, Htok.
  destruct (exp_claim_token _ _ He) as [-> ->]. simpl.
  rewrite He, Htruthy. simpl. rewrite Hnan.
  unfold refreshAccessToken, await. simpl. autorewrite with hook.
  repeat split.
Qed.

(** ** The refresh after its first answer *)

(** X6.  When the refresh has minted a token but the profile fetch that
    follows fails (an exception, no data, or an error beside the data),
    the session is torn down and the token just stored is removed again;
    nothing is retried and no timer is armed. *)
Theorem refresh_revalidation_failure_tears_down
    (st : State) (i r : nat) (c : Caller) (s : Session) (resp : ProfileResp)
    (now : Z) :
  find_task i (tasks st) = Some (KRefreshProfile s r c) →
  resp = PThrow ∨ (∃ err, resp = PResp None err) ∨
  (∃ u err, resp = PResp (Some u) err ∧ truthy_opt err = true) →
  let st' := step st (EvProfile i resp now) in
  auth st' = signed_out ∧ storage st' = None ∧ calls st' = calls st ∧
  tasks st' = remove_task i (tasks st) ∧ timers st' = timers st ∧
  next_timer st' = next_timer st.
Proof.
  intros Hk Hfail. cbn [step]. rewrite Hk.
  assert (Hres : resume_refresh_profile resp s r c now
                   (set_tasks (remove_task i (tasks st)) st) =
                 after_refresh false r c now
                   (teardown (set_tasks (remove_task i (tasks st)) st))).
  { destruct Hfail as [->|[[err ->]|[u [err [-> Herr]]]]]; simpl;
      try reflexivity.
    rewrite Herr. reflexivity. }
  rewrite Hres. destruct c; repeat split.
Qed.

(** X7.  Sign-out does not cancel a refresh in flight: when the answer of
    [refreshSession] arrives after the sign-out, the new token is written
    into the slot the sign-out had emptied, and the profile is fetched
    with it. *)
Theorem sign_out_during_refresh_is_overwritten
    (st : State) (i r r' : nat) (c : Caller) (s : Session) (now : Z) :
  find_task i (tasks st) = Some (KRefreshSession r c) →
  truthy_string (access_token s) = true →
  let st1 := fst (signOut r' st) in
  let st2 := step st1 (EvRefresh i (RResp (Some s) None) now) in
  auth st1 = signed_out ∧ storage st1 = None ∧
  storage st2 = Some (access_token s) ∧
  calls st2 = calls st ++ [CallProfile].
Proof.
  intros Hk Htr st1 st2. subst st1 st2. unfold signOut. cbn [fst step].
  cbn [tasks set_auth]. rewrite clear_refreshTimer_tasks. cbn [tasks set_storage].
  rewrite Hk. unfold resume_refresh_session. rewrite Htr.
  unfold await. simpl. autorewrite with hook. repeat split.
Qed.

(** X8.  Nor does it cancel the profile fetch of a refresh: when that
    answer arrives after the sign-out, the hook is signed in again, with
    an empty token slot and no timer armed. *)
Theorem sign_out_during_revalidation_signs_in_again
    (st : State) (i r r' : nat) (c : Caller) (s : Session) (u : FlaskUser)
    (err : option string) (now : Z) :
  find_task i (tasks st) = Some (KRefreshProfile s r c) →
  truthy_opt err = false →
  let st1 := fst (signOut r' st) in
  let st2 := step st1 (EvProfile i (PResp (Some u) err) now) in
  auth st1 = signed_out ∧ storage st1 = None ∧
  auth st2 = signed_in u s ∧ storage st2 = None ∧
  calls st2 = calls st ∧ next_timer st2 = next_timer st.
Proof.
  intros Hk Herr st1 st2. subst st1 st2. unfold signOut. cbn [fst step].
  cbn [tasks set_auth]. rewrite clear_refreshTimer_tasks. cbn [tasks set_storage].
  rewrite Hk. unfold resume_refresh_profile. rewrite Herr.
  assert (Hsched : ∀ st0, storage st0 = None →
            checkAndScheduleRefresh r (storage st0) now st0 =
            clear_refreshTimer r st0).
  { intros st0 E. apply schedule_without_expiry. rewrite E. exact I. }
  assert (Htry : ∀ st0, storage st0 = None →
            schedule_in_try r (storage st0) now st0 =
            clear_refreshTimer r st0).
  { intros st0 E. rewrite schedule_in_try_returns; [exact (Hsched st0 E)|].
    apply schedule_throws_without_expiry. rewrite E. exact I. }
  unfold after_refresh.
  destruct c;
    first [ rewrite Htry by (simpl; apply clear_refreshTimer_storage)
          | rewrite Hsched by (simpl; apply clear_refreshTimer_storage) ];
    autorewrite with hook; simpl; autorewrite with hook; repeat split.
Qed.

(** ** Bootstrap *)

(** X9.  Bootstrap with nothing in the slot, or with the empty string in
    it: the hook ends signed out with [loading] off and the slot removed,
    without calling any collaborator. *)
Theorem bootstrap_without_token (slot : option string) :
  truthy_opt slot = false →
  let st := step (init slot) EvMount in
  auth st = signed_out ∧ storage st = None ∧ calls st = [] ∧
  tasks st = [] ∧ timers st = [].
Proof.
  intros Hslot. destruct slot as [[|c token]|]; try discriminate Hslot;
    repeat split.
Qed.

(** X10.  The recovery path of bootstrap: the stored token is rejected by
    the profile check with an error, the one refresh mints a token whose
    expiry is more than the buffer ahead, and the profile check accepts
    it.  Bootstrap ends signed in with the user of the second profile
    answer and the session of the refresh, the new token in the slot, and
    one timer armed for the new expiry, whatever the old token was. *)
Theorem bootstrap_recovers_by_refresh
    (token : string) (err perr : option string) (s : Session) (u : FlaskUser)
    (e now0 now1 now : Z) :
  truthy_string token = true →
  truthy_opt err = true →
  truthy_opt perr = false →
  get_exp (decodeJwt (access_token s)) = Some (JNum e) →
  0 <= now →
  e * 1000 - now > REFRESH_BUFFER →
  let st :=
    run (init (Some token))
      [EvMount; EvProfile 0 (PResp None err) now0;
       EvRefresh 1 (RResp (Some s) None) now1;
       EvProfile 2 (PResp (Some u) perr) now] in
  auth st = signed_in u s ∧
  storage st = Some (access_token s) ∧
  calls st = [CallProfile; CallRefresh; CallProfile] ∧
  tasks st = [] ∧
  timers st =
    [{| tm_id := 1; tm_delay := e * 1000 - now - REFRESH_BUFFER;
        tm_render := 0 |}].
Proof.
  intros Htr Herr Hperr He Hnow Hfar.
  destruct (exp_claim_token _ _ He) as [Hs _].
  pose proof REFRESH_BUFFER_value as HB.
  unfold run. cbn [fold_left]. rewrite (mount_with_token token Htr).
  simpl. rewrite Herr. unfold refreshAccessToken. simpl.
  rewrite Hs. simpl. rewrite Hperr. simpl.
  rewrite schedule_in_try_returns by
    (apply (schedule_throws_with_expiry _ _ (access_token s) e);
     [unfold js_or; simpl; rewrite Hs; reflexivity | exact He]).
  rewrite (schedule_with_expiry 0 _ now _ (access_token s) e); [|
    unfold js_or; simpl; rewrite Hs; reflexivity | exact He | lia].
  destruct (Z.leb_spec (e * 1000 - now) 0) as [Hle|_]; [lia|].
  destruct (Z.gtb_spec (e * 1000 - now) REFRESH_BUFFER) as [_|Hgt]; [|lia].
  repeat split.
Qed.

(** ** Sign-in as its caller sees it *)

(** Whether line 111 throws on a token handed to the schedule check does
    not depend on the state. *)
Lemma schedule_throws_initial token st st' :
  truthy_string token = true →
  schedule_throws (Some token) st = schedule_throws (Some token) st'.
Proof.
  intros Htr. unfold schedule_throws, js_or. simpl. rewrite Htr.
  reflexivity.
Qed.

(** A schedule check that throws leaves the state as it is after the
    guard. *)
Lemma schedule_when_throws r it now st :
  schedule_throws it st = true →
  checkAndScheduleRefresh r it now st = clear_refreshTimer r st.
Proof.
  unfold schedule_throws, checkAndScheduleRefresh.
  rewrite clear_refreshTimer_storage.
  repeat match goal with
         | |- context [match ?x with _ => _ end] => destruct x
         end; first [discriminate | reflexivity].
Qed.


(** X12.  A login that returns a user and a token whose (non-zero) expiry
    is already past: [signIn] resolves to that user with no error, so the
    page goes on to the jobs page, while the schedule check has torn the
    session down: the state is signed out and the slot is empty. *)
Theorem sign_in_with_expired_token_reports_success
    (st : State) (r : nat) (now : Z) (token : string) (u : FlaskUser)
    (err : option string) (e : Z) :
  truthy_opt err = false →
  get_exp (decodeJwt token) = Some (JNum e) →
  e ≠ 0 →
  e * 1000 - now <= 0 →
  let res :=
    resume_signIn
      (LResp (Some {| login_token := token; login_user := Some u |}) err)
      r now st in
  snd res = SignInReturn (Some u) None ∧
  handleSubmit_login (snd res) = GoToJobs ∧
  auth (fst res) = signed_out ∧
  storage (fst res) = None ∧
  next_timer (fst res) = next_timer st ∧
  calls (fst res) = calls st.
Proof.
  intros Herr He Hnz Hpast res. subst res.
  destruct (exp_claim_token _ _ He) as [Htr _].
  unfold resume_signIn. rewrite Herr, Htr. cbn [fst snd].
  rewrite (schedule_throws_with_expiry (Some token) _ token e) by
    (first [exact He | unfold js_or; simpl; rewrite Htr; reflexivity]).
  rewrite (schedule_with_expiry r (Some token) now _ token e); [|
    unfold js_or; simpl; rewrite Htr; reflexivity | exact He | exact Hnz].
  destruct (Z.leb_spec (e * 1000 - now) 0) as [_|Hgt]; [|lia].
  simpl. autorewrite with hook. repeat split.
Qed.

(** ** Invariants of the reachable states *)

(** The schedule check is the guard followed by nothing, a teardown, a
    timer or a refresh. *)
Lemma schedule_cases r it now st :
  let st0 := clear_refreshTimer r st in
  checkAndScheduleRefresh r it now st = st0 ∨
  checkAndScheduleRefresh r it now st = teardown st0 ∨
  (∃ d, checkAndScheduleRefresh r it now st = arm_timer r d st0) ∨
  checkAndScheduleRefresh r it now st = refreshAccessToken r FromSchedule st0.
Proof.
  unfold checkAndScheduleRefresh.
  repeat match goal with
         | |- context [match ?x with _ => _ end] => destruct x
         end; eauto.
Qed.

(** A property kept by the primitives is kept by every callback. *)
Lemma step_preserves (P : State → Prop) :
  (∀ r st, P st → P (clear_refreshTimer r st)) →
  (∀ r d st, P st → P (arm_timer r d st)) →
  (∀ a st, P st → P (set_auth a st)) →
  (∀ slot st, P st → P (set_storage slot st)) →
  (∀ c k st, P st → P (await c k st)) →
  (∀ i st, P st → P (set_tasks (remove_task i (tasks st)) st)) →
  (∀ i st, P st → P (set_timers (clear_timer i (timers st)) st)) →
  (∀ st, P st → P (set_cells (cells st ++ [None]) st)) →
  (∀ st, P st → cells st = [] → P (set_cells [None] st)) →
  ∀ st e, P st → P (step st e).
Proof.
  intros Hclear Harm Hauth Hstore Hawait Hrem Hfire Hrender Hmount.
  assert (Htear : ∀ st, P st → P (teardown st)).
  { intros st Hp. unfold teardown. auto. }
  assert (Hsched : ∀ r it now st, P st → P (checkAndScheduleRefresh r it now st)).
  { intros r it now st Hp.
    destruct (schedule_cases r it now st) as [-> | [-> | [[d ->] | ->]]];
      unfold refreshAccessToken; auto. }
  assert (Htry : ∀ r it now st, P st → P (schedule_in_try r it now st)).
  { intros r it now st Hp. unfold schedule_in_try.
    destruct (schedule_throws it st); auto. }
  assert (Hafter : ∀ b r c now st, P st → P (after_refresh b r c now st)).
  { intros b r c now st Hp. unfold after_refresh. destruct c, b; auto. }
  intros st e Hp.
  destruct e as [| |r email password|r|i|i resp now|i resp now|i resp now];
    cbn [step].
  - destruct (cells st) eqn:Ec; [|exact Hp].
    unfold checkLocalSession. simpl.
    destruct (storage st) as [token|];
      [destruct (truthy_string token)|]; auto.
  - destruct (cells st) eqn:Ec; [exact Hp|]. rewrite <- Ec. auto.
  - destruct (r <? length (cells st))%nat; [|exact Hp].
    unfold signIn_start. auto.
  - destruct (r <? length (cells st))%nat; [|exact Hp]. simpl. auto.
  - destruct (find_timer i (timers st)); [|exact Hp].
    unfold refreshAccessToken. auto.
  - destruct (find_task i (tasks st)) as [[token|r c|s r c|r]|];
      try exact Hp.
    + unfold resume_boot_profile, refreshAccessToken.
      destruct resp as [|[u|] err]; auto.
      destruct (truthy_opt err); auto.
    + unfold resume_refresh_profile.
      destruct resp as [|[u|] err]; auto.
      destruct (truthy_opt err); auto.
  - destruct (find_task i (tasks st)) as [[token|r c|s r c|r]|];
      try exact Hp.
    unfold resume_refresh_session.
    destruct resp as [|[s|] [m|]]; auto.
    destruct (truthy_string (access_token s)); auto.
  - destruct (find_task i (tasks st)) as [[token|r c|s r c|r]|];
      try exact Hp.
    unfold resume_signIn.
    destruct resp as [|data err]; simpl; auto.
    destruct (truthy_opt err); simpl; auto.
    destruct data as [[token [u|]]|]; simpl; auto.
    destruct (truthy_string token); simpl; auto.
Qed.

Lemma run_preserves (P : State → Prop) st evs :
  (∀ st e, P st → P (step st e)) → P st → P (run st evs).
Proof.
  intros Hstep. revert st. induction evs as [|e evs IH]; intros st Hp.
  - exact Hp.
  - simpl. apply IH. apply Hstep. exact Hp.
Qed.

Lemma tasks_wf_frame st st' :
  tasks st' = tasks st → next_task st' = next_task st →
  tasks_wf st → tasks_wf st'.
Proof. unfold tasks_wf. intros -> ->. tauto. Qed.

(** Every reachable state names its suspended operations apart. *)
Lemma reachable_tasks_wf slot evs : tasks_wf (run (init slot) evs).
Proof.
  apply run_preserves.
  - apply step_preserves;
      try (intros; eapply tasks_wf_frame; [| |eassumption];
           autorewrite with hook; reflexivity).
    + intros c k st [Hlt Hfun]. split; simpl.
      * intros i k0 Hin. apply elem_of_app in Hin. destruct Hin as [Hin|Hin].
        -- apply Hlt in Hin. lia.
        -- apply list_elem_of_singleton in Hin. injection Hin as -> ->. lia.
      * intros i k1 k2 H1 H2.
        apply elem_of_app in H1. apply elem_of_app in H2.
        destruct H1 as [H1|H1], H2 as [H2|H2].
        -- eauto.
        -- apply list_elem_of_singleton in H2. injection H2 as -> ->.
           apply Hlt in H1. lia.
        -- apply list_elem_of_singleton in H1. injection H1 as -> ->.
           apply Hlt in H2. lia.
        -- apply list_elem_of_singleton in H1.
           apply list_elem_of_singleton in H2. congruence.
    + intros i st [Hlt Hfun]. split; simpl.
      * intros j k Hin. unfold remove_task in Hin.
        apply list_elem_of_filter in Hin. apply Hlt with k. tauto.
      * intros j k1 k2 H1 H2. unfold remove_task in H1, H2.
        apply list_elem_of_filter in H1. apply list_elem_of_filter in H2.
        apply Hfun with j; tauto.
  - split; simpl.
    + intros i k Hin. apply elem_of_nil in Hin. contradiction.
    + intros i k k' Hin. apply elem_of_nil in Hin. contradiction.
Qed.

Lemma timer_ids_wf_frame st st' :
  cells st' = cells st → timers st' = timers st →
  next_timer st' = next_timer st →
  timer_ids_wf st → timer_ids_wf st'.
Proof. unfold timer_ids_wf. intros -> -> ->. tauto. Qed.

(** Every reachable state keeps timer identifiers apart. *)
Lemma reachable_timer_ids_wf slot evs : timer_ids_wf (run (init slot) evs).
Proof.
  apply run_preserves.
  - apply step_preserves;
      try (intros; eapply timer_ids_wf_frame; [| | |eassumption];
           reflexivity).
    + intros r st (Hlt & Hcell & Hown). unfold clear_refreshTimer.
      destruct (refreshTimer r st) as [i|] eqn:Er;
        [|split; [|split]; assumption].
      split; [|split]; simpl.
      * intros t Hin. unfold clear_timer in Hin.
        apply list_elem_of_filter in Hin. apply Hlt. tauto.
      * intros r' j Hl. destruct (decide (r = r')) as [<-|Hne].
        -- destruct (cells st !! r) eqn:Ec.
           ++ rewrite list_lookup_insert_eq in Hl
                by (apply lookup_lt_Some in Ec; exact Ec).
              discriminate Hl.
           ++ rewrite list_insert_ge in Hl
                by (apply lookup_ge_None; exact Ec).
              eauto.
        -- rewrite list_lookup_insert_ne in Hl by exact Hne. eauto.
      * intros t r' Hin Hl. unfold clear_timer in Hin.
        apply list_elem_of_filter in Hin. destruct Hin as [_ Hin].
        destruct (decide (r = r')) as [<-|Hne].
        -- unfold refreshTimer in Er.
           destruct (cells st !! r) eqn:Ec; [|discriminate Er].
           rewrite list_lookup_insert_eq in Hl
             by (apply lookup_lt_Some in Ec; exact Ec).
           discriminate Hl.
        -- rewrite list_lookup_insert_ne in Hl by exact Hne. eauto.
    + intros r d st (Hlt & Hcell & Hown). split; [|split]; simpl.
      * intros t Hin. apply elem_of_app in Hin. destruct Hin as [Hin|Hin].
        -- apply Hlt in Hin. lia.
        -- apply list_elem_of_singleton in Hin. subst t. simpl. lia.
      * intros r' j Hl. destruct (decide (r = r')) as [<-|Hne].
        -- destruct (cells st !! r) eqn:Ec.
           ++ rewrite list_lookup_insert_eq in Hl
                by (apply lookup_lt_Some in Ec; exact Ec).
              injection Hl as <-. lia.
           ++ rewrite list_insert_ge in Hl
                by (apply lookup_ge_None; exact Ec).
              apply Hcell in Hl. lia.
        -- rewrite list_lookup_insert_ne in Hl by exact Hne.
           apply Hcell in Hl. lia.
      * intros t r' Hin Hl. apply elem_of_app in Hin.
        destruct (decide (r = r')) as [<-|Hne].
        -- destruct (cells st !! r) eqn:Ec.
           ++ rewrite list_lookup_insert_eq in Hl
                by (apply lookup_lt_Some in Ec; exact Ec).
              injection Hl as Hid. destruct Hin as [Hin|Hin].
              ** apply Hlt in Hin. lia.
              ** apply list_elem_of_singleton in Hin. subst t. reflexivity.
           ++ rewrite list_insert_ge in Hl
                by (apply lookup_ge_None; exact Ec).
              rewrite Ec in Hl. discriminate Hl.
        -- rewrite list_lookup_insert_ne in Hl by exact Hne.
           destruct Hin as [Hin|Hin]; [eauto|].
           apply list_elem_of_singleton in Hin. subst t. simpl in Hl.
           apply Hcell in Hl. lia.
    + intros i st (Hlt & Hcell & Hown). split; [|split]; simpl.
      * intros t Hin. unfold clear_timer in Hin.
        apply list_elem_of_filter in Hin. apply Hlt. tauto.
      * exact Hcell.
      * intros t r' Hin. unfold clear_timer in Hin.
        apply list_elem_of_filter in Hin. apply Hown. tauto.
    + intros st (Hlt & Hcell & Hown). split; [|split]; simpl.
      * exact Hlt.
      * intros r' j Hl. apply lookup_app_Some in Hl.
        destruct Hl as [Hl|[_ Hl]]; [eauto|].
        apply list_lookup_singleton_Some in Hl. destruct Hl as [_ Hl].
        discriminate Hl.
      * intros t r' Hin Hl. apply lookup_app_Some in Hl.
        destruct Hl as [Hl|[_ Hl]]; [eauto|].
        apply list_lookup_singleton_Some in Hl. destruct Hl as [_ Hl].
        discriminate Hl.
    + intros st (Hlt & Hcell & Hown) Ec. split; [|split]; simpl.
      * exact Hlt.
      * intros r' j Hl. apply list_lookup_singleton_Some in Hl.
        destruct Hl as [_ Hl]. discriminate Hl.
      * intros t r' _ Hl. apply list_lookup_singleton_Some in Hl.
        destruct Hl as [_ Hl]. discriminate Hl.
  - split; [|split]; simpl.
    + intros t Hin. apply elem_of_nil in Hin. contradiction.
    + intros r i Hl. discriminate Hl.
    + intros t r Hin. apply elem_of_nil in Hin. contradiction.
Qed.

(** ** What the guard cancels *)

Lemma filter_agree {A} (P Q : A → Prop) `{∀ x, Decision (P x)}
    `{∀ x, Decision (Q x)} (l : list A) :
  (∀ x, x ∈ l → (P x ↔ Q x)) → filter P l = filter Q l.
Proof.
  induction l as [|x l IH]; intros Hpq; [reflexivity|].
  assert (Hx : P x ↔ Q x) by (apply Hpq; apply elem_of_cons; auto).
  assert (Hl : filter P l = filter Q l).
  { apply IH. intros y Hy. apply Hpq. apply elem_of_cons. auto. }
  destruct (decide (P x)) as [Hp|Hp].
  - rewrite !filter_cons_True by tauto. rewrite Hl. reflexivity.
  - rewrite !filter_cons_False by tauto. exact Hl.
Qed.

Lemma filter_all {A} (P : A → Prop) `{∀ x, Decision (P x)} (l : list A) :
  (∀ x, x ∈ l → P x) → filter P l = l.
Proof.
  induction l as [|x l IH]; intros Hp; [reflexivity|].
  rewrite filter_cons_True by (apply Hp; apply elem_of_cons; auto).
  rewrite IH; [reflexivity|]. intros y Hy. apply Hp. apply elem_of_cons. auto.
Qed.

(** In a reachable state the guard cancels the pending timer of its own
    render and no other. *)
Lemma clear_refreshTimer_exact r st :
  timers_owned st → timer_ids_wf st →
  timers (clear_refreshTimer r st) =
  filter (fun t => tm_render t ≠ r) (timers st).
Proof.
  intros (Hcell & _ & _) (_ & _ & Hown). unfold clear_refreshTimer.
  destruct (refreshTimer r st) as [i|] eqn:Er; simpl.
  - unfold clear_timer. apply filter_agree. intros t Hin.
    unfold refreshTimer in Er.
    destruct (cells st !! r) as [c|] eqn:Ec; [|discriminate Er]. subst c.
    split.
    + intros Hid Hr. apply Hcell in Hin. rewrite Hr, Ec in Hin. congruence.
    + intros Hr Hid. apply Hr. symmetry. apply (Hown t r Hin).
      rewrite Hid. exact Ec.
  - symmetry. apply filter_all. intros t Hin Hr.
    apply Hcell in Hin. unfold refreshTimer in Er.
    rewrite Hr in Hin. rewrite Hin in Er. discriminate Er.
Qed.

(** X13.  In every state the hook reaches, each render has at most one
    pending timer, and every pending timer is the one held by the
    [refreshTimer] of the render that armed it. *)
Theorem at_most_one_timer_per_render
    (slot : option string) (evs : list Event) (r : nat) :
  let st := run (init slot) evs in
  (length (timers_of_render r (timers st)) <= 1)%nat ∧
  (∀ t, t ∈ timers st → refreshTimer (tm_render t) st = Some (tm_id t)).
Proof.
  destruct (one_timer_per_render slot evs) as (Hcell & Hone & _).
  split; [apply Hone|].
  intros t Hin. unfold refreshTimer. rewrite (Hcell t Hin). reflexivity.
Qed.

(** X14.  In every state the hook reaches, [signOut] called through the
    closures of render [r] leaves the signed-out state and an empty slot
    and cancels the timer armed through render [r], and only that one: the
    timers armed through every other render stay pending, and so do the
    operations waiting for an answer. *)
Theorem signOut_cancels_own_timer_only
    (slot : option string) (evs : list Event) (r : nat) :
  let st := run (init slot) evs in
  (r < length (cells st))%nat →
  let st' := step st (EvSignOut r) in
  auth st' = signed_out ∧ storage st' = None ∧
  timers st' = filter (fun t => tm_render t ≠ r) (timers st) ∧
  tasks st' = tasks st ∧ calls st' = calls st.
Proof.
  intros st Hr st'. subst st'. cbn [step].
  destruct (Nat.ltb_spec r (length (cells st))) as [_|Hge]; [|lia].
  unfold signOut. cbn [fst]. rewrite clear_refreshTimer_set_storage.
  simpl. autorewrite with hook.
  rewrite (clear_refreshTimer_exact r st (one_timer_per_render slot evs)
             (reachable_timer_ids_wf slot evs)).
  repeat split.
Qed.

(** X15.  In every state the hook reaches, the cleanup of the effect
    cancels the timer armed through the first render, and only that one:
    a timer armed through a later render stays pending after the
    component is unmounted, and so do the operations waiting for an
    answer. *)
Theorem cleanup_cancels_first_render_only
    (slot : option string) (evs : list Event) :
  let st := run (init slot) evs in
  timers (cleanup st) = filter (fun t => tm_render t ≠ 0%nat) (timers st) ∧
  tasks (cleanup st) = tasks st ∧
  auth (cleanup st) = auth st ∧ storage (cleanup st) = storage st.
Proof.
  intros st. unfold cleanup. autorewrite with hook.
  rewrite (clear_refreshTimer_exact 0 st (one_timer_per_render slot evs)
             (reachable_timer_ids_wf slot evs)).
  repeat split.
Qed.

(** ** A scheduled refresh from fire to re-arm *)

Lemma find_task_fresh m k0 ks :
  (∀ j k, (j, k) ∈ ks → (j < m)%nat) →
  find_task m (ks ++ [(m, k0)]) = Some k0.
Proof.
  induction ks as [|[j k] ks IH]; intros Hlt; simpl.
  - rewrite Nat.eqb_refl. reflexivity.
  - destruct (Nat.eqb_spec m j) as [->|_].
    + specialize (Hlt j k). assert ((j < j)%nat); [|lia].
      apply Hlt. apply elem_of_cons. auto.
    + apply IH. intros j' k' Hin. apply (Hlt j' k'). apply elem_of_cons. auto.
Qed.

Lemma remove_task_fresh m k0 ks :
  (∀ j k, (j, k) ∈ ks → (j < m)%nat) →
  remove_task m (ks ++ [(m, k0)]) = ks.
Proof.
  intros Hlt. unfold remove_task. rewrite filter_app.
  rewrite filter_all.
  - rewrite filter_cons_False by (simpl; auto). rewrite filter_nil.
    apply app_nil_r.
  - intros [j k] Hin. simpl. apply Hlt in Hin. lia.
Qed.

(** X16.  In every state the hook reaches, whatever the session state is
    (signed in, or signed out with a timer left pending), a pending timer
    that fires, a refresh that mints a token whose expiry is more than
    the buffer ahead and a profile fetch that succeeds leave the hook
    signed in with the new user and session and the new token in the
    slot, and the render of the fired timer holds one pending timer, armed
    for the new expiry. *)
Theorem scheduled_refresh_rearms
    (slot : option string) (evs : list Event) (i : nat) (t : Timer)
    (s : Session) (u : FlaskUser) (perr : option string) (e now1 now : Z) :
  let st := run (init slot) evs in
  find_timer i (timers st) = Some t →
  truthy_opt perr = false →
  get_exp (decodeJwt (access_token s)) = Some (JNum e) →
  0 <= now →
  e * 1000 - now > REFRESH_BUFFER →
  let st' :=
    run st
      [EvFire i;
       EvRefresh (next_task st) (RResp (Some s) None) now1;
       EvProfile (S (next_task st)) (PResp (Some u) perr) now] in
  auth st' = signed_in u s ∧
  storage st' = Some (access_token s) ∧
  calls st' = calls st ++ [CallRefresh; CallProfile] ∧
  tasks st' = tasks st ∧
  timers_of_render (tm_render t) (timers st') =
    [{| tm_id := next_timer st;
        tm_delay := e * 1000 - now - REFRESH_BUFFER;
        tm_render := tm_render t |}].
Proof.
  intros st Hf Hperr He Hnow Hfar st'.
  pose proof (one_timer_per_render slot evs) as Ho.
  destruct (reachable_tasks_wf slot evs) as [Hlt _].
  fold st in Ho, Hlt. clearbody st.
  destruct (exp_claim_token _ _ He) as [Hs _].
  pose proof REFRESH_BUFFER_value as HB.
  set (r := tm_render t) in *.
  set (n := next_task st) in *.
  set (S1 := {| auth := auth st; storage := storage st; cells := cells st;
                timers := clear_timer i (timers st);
                next_timer := next_timer st;
                tasks := tasks st ++ [(n, KRefreshSession r FromSchedule)];
                next_task := S n; calls := calls st ++ [CallRefresh] |}).
  set (S2 := {| auth := auth st; storage := Some (access_token s);
                cells := cells st; timers := clear_timer i (timers st);
                next_timer := next_timer st;
                tasks := tasks st ++ [(S n, KRefreshProfile s r FromSchedule)];
                next_task := S (S n);
                calls := (calls st ++ [CallRefresh]) ++ [CallProfile] |}).
  set (S3 := {| auth := signed_in u s; storage := Some (access_token s);
                cells := cells st; timers := clear_timer i (timers st);
                next_timer := next_timer st; tasks := tasks st;
                next_task := S (S n);
                calls := (calls st ++ [CallRefresh]) ++ [CallProfile] |}).
  assert (E1 : step st (EvFire i) = S1).
  { cbn [step]. rewrite Hf. reflexivity. }
  assert (E2 : step S1 (EvRefresh n (RResp (Some s) None) now1) = S2).
  { cbn [step].
    change (tasks S1) with (tasks st ++ [(n, KRefreshSession r FromSchedule)]).
    rewrite find_task_fresh, remove_task_fresh by exact Hlt.
    unfold resume_refresh_session. rewrite Hs. reflexivity. }
  assert (Hlt' : ∀ j k, (j, k) ∈ tasks st → (j < S n)%nat).
  { intros j k Hin. apply Hlt in Hin. lia. }
  assert (E3 : step S2 (EvProfile (S n) (PResp (Some u) perr) now) =
               checkAndScheduleRefresh r (Some (access_token s)) now S3).
  { cbn [step].
    change (tasks S2)
      with (tasks st ++ [(S n, KRefreshProfile s r FromSchedule)]).
    rewrite find_task_fresh, remove_task_fresh by exact Hlt'.
    unfold resume_refresh_profile. rewrite Hperr. reflexivity. }
  assert (Ho3 : timers_owned S3).
  { destruct Ho as (Hcell & Hone & Htask). split; [|split]; simpl.
    - intros t' Hin. unfold clear_timer in Hin.
      apply list_elem_of_filter in Hin. apply Hcell. tauto.
    - intros r'. etransitivity; [apply timers_of_render_clear|apply Hone].
    - exact Htask. }
  destruct (clear_refreshTimer_owned r S3 Ho3) as (_ & Hno & _).
  subst st'. unfold run. cbn [fold_left]. rewrite E1, E2, E3.
  rewrite (schedule_with_expiry r _ now _ (access_token s) e); [|
    unfold js_or; simpl; rewrite Hs; reflexivity | exact He | lia].
  destruct (Z.leb_spec (e * 1000 - now) 0) as [Hle|_]; [lia|].
  destruct (Z.gtb_spec (e * 1000 - now) REFRESH_BUFFER) as [_|Hgt]; [|lia].
  simpl. autorewrite with hook. simpl.
  split; [reflexivity|]. split; [reflexivity|].
  split; [rewrite <- app_assoc; reflexivity|]. split; [reflexivity|].
  unfold timers_of_render. rewrite filter_app.
  fold (timers_of_render r (timers (clear_refreshTimer r S3))).
  rewrite (timers_of_render_none r _ Hno).
  rewrite filter_cons_True by reflexivity. reflexivity.
Qed.

(** ** The state the components read *)

(** One callback keeps the state, turns [loading] on (the mount effect
    only), resets the state, or sets a signed-in state. *)
Lemma step_auth_cases st e :
  auth (step st e) = auth st ∨
  (e = EvMount ∧
   auth (step st e) =
     {| user := user (auth st); session := session (auth st);
        auth_role := auth_role (auth st); loading := true |}) ∨
  auth (step st e) = signed_out ∨
  (∃ u s, auth (step st e) = signed_in u s).
Proof.
  destruct e as [| |r email password|r|i|i resp now|i resp now|i resp now];
    cbn [step].
  - destruct (cells st); [|auto]. unfold checkLocalSession. simpl.
    destruct (storage st) as [token|]; [destruct (truthy_string token)|];
      simpl; auto.
  - destruct (cells st); auto.
  - destruct (r <? length (cells st))%nat; auto.
  - destruct (r <? length (cells st))%nat; simpl; auto.
  - destruct (find_timer i (timers st)); auto.
  - destruct (find_task i (tasks st)) as [[token|r c|s r c|r]|]; auto.
    + destruct resp as [|[u|] err]; simpl; auto.
      * match goal with
        | |- context [schedule_in_try ?r ?it ?n ?s] =>
            destruct (schedule_in_try_auth r it n s) as [-> | ->]
        end; simpl; eauto 8.
      * destruct (truthy_opt err); simpl; auto.
    + unfold resume_refresh_profile.
      destruct resp as [|[u|] err]; [| destruct (truthy_opt err) |];
        match goal with
        | |- context [after_refresh ?b ?r ?c ?n ?s] =>
            destruct (after_refresh_auth b r c n s) as [-> | ->]
        end; simpl; eauto 8.
  - destruct (find_task i (tasks st)) as [[token|r c|s r c|r]|]; auto.
    unfold resume_refresh_session.
    destruct resp as [|[s|] [m|]];
      [| | destruct (truthy_string (access_token s)) | |];
      try (match goal with
           | |- context [after_refresh ?b ?r ?c ?n ?s] =>
               destruct (after_refresh_auth b r c n s) as [-> | ->]
           end); simpl; auto.
  - destruct (find_task i (tasks st)) as [[token|r c|s r c|r]|]; auto.
    unfold resume_signIn.
    destruct resp as [|data err]; simpl; auto.
    destruct (truthy_opt err); simpl; auto.
    destruct data as [[token [u|]]|]; simpl; auto.
    destruct (truthy_string token); simpl; auto.
    match goal with
    | |- context [checkAndScheduleRefresh ?r ?it ?n ?s] =>
        destruct (schedule_auth r it n s) as [-> | ->]
    end; simpl; eauto 8.
Qed.

Lemma auth_state_coherent_aux (slot : option string) (evs : list Event) :
  auth_coherent (auth (run (init slot) evs)).
Proof.
  induction evs as [|e evs IH] using rev_ind.
  - left. repeat split.
  - rewrite run_snoc.
    destruct (step_auth_cases (run (init slot) evs) e)
      as [-> | [[_ ->] | [-> | [u [s ->]]]]].
    + exact IH.
    + exact IH.
    + left. repeat split.
    + right. exists u, s. repeat split.
Qed.

(** X17.  In every state the hook reaches, [user], [session] and [role]
    are all [null] or all set, and [role] is the role of [user]: no
    component sees a user without a role, or a role without a user. *)
Theorem auth_state_is_coherent (slot : option string) (evs : list Event) :
  let a := auth (run (init slot) evs) in
  (user a = None ∧ session a = None ∧ auth_role a = None) ∨
  (∃ u s, user a = Some u ∧ session a = Some s ∧
          auth_role a = Some (role u)).
Proof. exact (auth_state_coherent_aux slot evs). Qed.

(** X18.  In every state the hook reaches, the guard of a page decides by
    the role of the signed-in user: while [loading] it does nothing, with
    no user it sends to [/auth], with a user of another role than the
    required one to [/], and otherwise it lets the page show. *)
Theorem useRequireAuth_follows_the_user
    (slot : option string) (evs : list Event) (requiredRole : option UserRole) :
  let a := auth (run (init slot) evs) in
  useRequireAuth requiredRole a =
    if loading a then None
    else
      match user a, requiredRole with
      | None, _ => Some "/auth"
      | Some u, Some wanted =>
          if UserRole_eqb (role u) wanted then None else Some "/"
      | Some _, None => None
      end.
Proof.
  intros a. unfold useRequireAuth, role_is.
  destruct (auth_state_coherent_aux slot evs) as [(Hu & _ & Hr) | (u & s & Hu & _ & Hr)];
    fold a in Hu, Hr; rewrite Hu, ?Hr; reflexivity.
Qed.

(** X19.  In every state the hook reaches, [isCandidate] and
    [isRecruiter] tell the role of the signed-in user, are both off when
    nobody is signed in, and are never both on. *)
Theorem role_flags_follow_the_user
    (slot : option string) (evs : list Event) :
  let a := auth (run (init slot) evs) in
  isCandidate a =
    match user a with
    | Some u => UserRole_eqb (role u) candidate
    | None => false
    end ∧
  isRecruiter a =
    match user a with
    | Some u => UserRole_eqb (role u) recruiter
    | None => false
    end ∧
  isCandidate a && isRecruiter a = false.
Proof.
  intros a. unfold isCandidate, isRecruiter, role_is.
  destruct (auth_state_coherent_aux slot evs) as [(Hu & _ & Hr) | (u & s & Hu & _ & Hr)];
    fold a in Hu, Hr; rewrite Hu, Hr; repeat split.
  destruct (role u); reflexivity.
Qed.

(** ** [loading] *)

Lemma boot_pending_grow st st' :
  (∀ p, p ∈ tasks st → p ∈ tasks st') → boot_pending st → boot_pending st'.
Proof. intros Hincl (i & k & Hin & Hb). exists i, k. auto. Qed.

Lemma boot_pending_await c k st :
  boot_pending st ∨ is_boot k = true → boot_pending (await c k st).
Proof.
  intros [Hb|Hk].
  - apply (boot_pending_grow st); [|exact Hb]. intros p Hin. simpl.
    apply elem_of_app. auto.
  - exists (next_task st), k. split; [|exact Hk]. simpl.
    apply elem_of_app. right. apply list_elem_of_singleton. reflexivity.
Qed.

(** Resuming an operation that is not of bootstrap leaves those of
    bootstrap waiting. *)
Lemma boot_pending_remove st i k :
  tasks_wf st → find_task i (tasks st) = Some k → is_boot k = false →
  boot_pending st → boot_pending (set_tasks (remove_task i (tasks st)) st).
Proof.
  intros [_ Hfun] Hk Hnb (j & k' & Hin & Hb). exists j, k'.
  split; [|exact Hb]. simpl. unfold remove_task.
  apply list_elem_of_filter. split; [|exact Hin]. simpl. intros ->.
  apply find_task_elem in Hk. rewrite (Hfun i k k' Hk Hin) in Hnb. congruence.
Qed.

Lemma step_loading st e :
  tasks_wf st →
  (loading (auth st) = true → cells st = [] ∨ boot_pending st) →
  loading (auth (step st e)) = true →
  cells (step st e) = [] ∨ boot_pending (step st e).
Proof.
  intros Hwf IH.
  destruct e as [| |r email password|r|i|i resp now|i resp now|i resp now];
    cbn [step].
  - destruct (cells st) eqn:Ec; [|rewrite <- Ec in IH; exact IH].
    unfold checkLocalSession. simpl.
    destruct (storage st) as [token|]; [destruct (truthy_string token)|];
      simpl; try discriminate.
    intros _. right. apply boot_pending_await. right. reflexivity.
  - destruct (cells st) eqn:Ec; [intros _; left; exact Ec|]. simpl.
    intros Hl. right. destruct (IH Hl) as [E|Hb]; [discriminate E|exact Hb].
  - destruct (Nat.ltb_spec r (length (cells st))) as [Hr|_]; [|exact IH].
    simpl. intros Hl. right. destruct (IH Hl) as [E|Hb].
    + rewrite E in Hr. simpl in Hr. lia.
    + apply (boot_pending_await _ _ st). left. exact Hb.
  - destruct (r <? length (cells st))%nat; [|exact IH]. simpl. discriminate.
  - destruct (find_timer i (timers st)); [|exact IH]. simpl.
    intros Hl. destruct (IH Hl) as [E|Hb]; [left; exact E|right].
    apply (boot_pending_await _ _ (set_timers _ st)). left. exact Hb.
  - destruct (find_task i (tasks st)) as [[token|r c|s r c|r]|] eqn:Ek;
      try exact IH.
    + unfold resume_boot_profile.
      destruct resp as [|[u|] err]; try (simpl; discriminate).
      * match goal with
        | |- context [schedule_in_try ?r ?it ?n ?s] =>
            destruct (schedule_in_try_auth r it n s) as [-> | ->]
        end; simpl; discriminate.
      * destruct (truthy_opt err); [|simpl; discriminate].
        intros _. right. apply boot_pending_await. right. reflexivity.
    + unfold resume_refresh_profile.
      destruct resp as [|[u|] err]; [| destruct (truthy_opt err) |];
        match goal with
        | |- context [after_refresh ?b ?r ?c ?n ?s] =>
            destruct (after_refresh_auth b r c n s) as [-> | ->]
        end; simpl; discriminate.
  - destruct (find_task i (tasks st)) as [[token|r c|s r c|r]|] eqn:Ek;
      try exact IH.
    assert (Hfail : loading (auth (after_refresh false r c now
              (teardown (set_tasks (remove_task i (tasks st)) st)))) = true →
            False).
    { destruct (after_refresh_auth false r c now
                  (teardown (set_tasks (remove_task i (tasks st)) st)))
        as [-> | ->]; simpl; discriminate. }
    unfold resume_refresh_session.
    destruct resp as [|[s|] [m|]]; try (intros Hl; destruct (Hfail Hl)).
    destruct (truthy_string (access_token s));
      [|intros Hl; destruct (Hfail Hl)].
    simpl. intros Hl. destruct (IH Hl) as [E|Hb]; [left; exact E|right].
    destruct c.
    * apply boot_pending_await. right. reflexivity.
    * apply (boot_pending_await _ _ (set_storage _ (set_tasks _ st))). left.
      apply (boot_pending_remove st i _ Hwf Ek); [reflexivity|exact Hb].
  - destruct (find_task i (tasks st)) as [[token|r c|s r c|r]|] eqn:Ek;
      try exact IH.
    assert (Hkeep : loading (auth st) = true →
              cells st = [] ∨
              boot_pending (set_tasks (remove_task i (tasks st)) st)).
    { intros Hl. destruct (IH Hl) as [E|Hb]; [left; exact E|right].
      apply (boot_pending_remove st i _ Hwf Ek); [reflexivity|exact Hb]. }
    unfold resume_signIn.
    destruct resp as [|data err]; [exact Hkeep|].
    destruct (truthy_opt err); [exact Hkeep|].
    destruct data as [[token [u|]]|]; try exact Hkeep.
    destruct (truthy_string token); [|exact Hkeep].
    cbn [fst].
    match goal with
    | |- context [checkAndScheduleRefresh ?r ?it ?n ?s] =>
        destruct (schedule_auth r it n s) as [-> | ->]
    end; simpl; discriminate.
Qed.

(** X20.  In every state the hook reaches, [loading] is on only before
    the component is mounted or while an operation of bootstrap (its
    profile check, or the refresh it started and the profile check of that
    refresh) is still waiting for its answer: once bootstrap has its
    answers, [loading] is off for good. *)
Theorem loading_only_during_bootstrap
    (slot : option string) (evs : list Event) :
  let st := run (init slot) evs in
  loading (auth st) = true →
  cells st = [] ∨ boot_pending st.
Proof.
  cbv zeta. induction evs as [|e evs IH] using rev_ind.
  - intros _. left. reflexivity.
  - rewrite run_snoc.
    apply step_loading; [apply reachable_tasks_wf|exact IH].
Qed.

(** X21.  Bootstrap and refresh read [getMyProfile]: since a result
    without a user always carries an error, bootstrap never gives the
    stored token up without trying the refresh, and the refresh counts its
    profile fetch as passed exactly when a user came back.  (With a user,
    bootstrap goes on to the schedule check of line 176, inside its
    [try].) *)
Theorem hook_on_getMyProfile
    (validation : ApiResponse ProtectedResponse)
    (profile : string → ApiResponse ProfileRow)
    (token : string) (s : Session) (r : nat) (c : Caller) (now : Z)
    (st : State) :
  let resp := fst (getMyProfile validation profile) in
  match resp with
  | PResp (Some u) _ =>
      resume_boot_profile resp token now st =
        schedule_in_try 0 (Some token) now
          (set_auth (signed_in u {| access_token := token |}) st) ∧
      resume_refresh_profile resp s r c now st =
        after_refresh true r c now (set_auth (signed_in u s) st)
  | _ =>
      resume_boot_profile resp token now st =
        refreshAccessToken 0 FromBoot st ∧
      resume_refresh_profile resp s r c now st =
        after_refresh false r c now (teardown st)
  end.
Proof.
  cbv zeta. unfold getMyProfile.
  destruct (if truthy_opt (api_error validation) then None
            else api_data validation) as [prot|].
  - destruct (if truthy_opt (api_error (profile _)) then None
              else api_data (profile _)) as [row|]; simpl.
    + split; reflexivity.
    + rewrite error_or_truthy by reflexivity. split; reflexivity.
  - simpl. rewrite error_or_truthy by reflexivity. split; reflexivity.
Qed.

End MoreProperties.

(** ** The profile endpoint and the header *)

(** X22.  [getMyProfile] answers with a user and no error, or with no
    user and a non-empty error, never with both or neither, and it throws
    nothing.  When the token validation fails the profile row is not
    requested.  The user it returns is put together from its two answers
    and from nothing else: [id], [first_name], [last_name] and [role] are
    those of the row requested for the user id of the validation answer,
    [email] is the address of the validation answer, and no other field is
    set. *)
Theorem getMyProfile_user_or_error
    (validation : ApiResponse ProtectedResponse)
    (profile : string → ApiResponse ProfileRow) :
  let res := getMyProfile validation profile in
  match fst res with
  | PThrow => False
  | PResp None err =>
      truthy_opt err = true ∧
      (api_data validation = None ∨ truthy_opt (api_error validation) = true →
       snd res = ["/auth/protected"])
  | PResp (Some u) err =>
      err = None ∧
      ∃ protected row,
        api_data validation = Some protected ∧
        truthy_opt (api_error validation) = false ∧
        snd res =
          ["/auth/protected";
           String.append "/auth/profile/" (user_id protected)] ∧
        api_data
          (profile (String.append "/auth/profile/" (user_id protected))) =
          Some row ∧
        truthy_opt
          (api_error
             (profile (String.append "/auth/profile/" (user_id protected)))) =
          false ∧
        u = {| id := row_id row; name := None;
               first_name := row_first_name row;
               last_name := row_last_name row;
               email := prot_email protected;
               role := row_role row |}
  end.
Proof.
  cbv zeta. unfold getMyProfile.
  destruct (truthy_opt (api_error validation)) eqn:Ev.
  - simpl. rewrite error_or_truthy by reflexivity. auto.
  - destruct (api_data validation) as [prot|] eqn:Ed.
    + destruct (truthy_opt (api_error (profile _))) eqn:Ep.
      * simpl. rewrite error_or_truthy by reflexivity.
        split; [reflexivity|]. intros [E|E]; discriminate E.
      * destruct (api_data (profile _)) as [row|] eqn:Er; simpl.
        -- split; [reflexivity|]. exists prot, row.
           repeat split; assumption.
        -- rewrite error_or_truthy by reflexivity.
           split; [reflexivity|]. intros [E|E]; discriminate E.
    + simpl. rewrite error_or_truthy by reflexivity. auto.
Qed.

(** X23.  The name the header shows.  With a first name and a last name
    that are both non-empty it is the two, with a space in between.
    Otherwise it is the part of the e-mail address before its first [@]
    (the whole address when it has no [@]), and ['Profile'] when that part
    is empty.  It is never empty. *)
Theorem getDisplayName_full_name_or_mailbox (u : FlaskUser) :
  truthy_string (getDisplayName u) = true ∧
  (truthy_string (first_name u) && truthy_string (last_name u) = true →
   getDisplayName u =
     String.append (first_name u) (String.append " " (last_name u))) ∧
  (truthy_string (first_name u) && truthy_string (last_name u) = false →
   (∀ mailbox rest,
      email u = String.append mailbox (String "@" rest) →
      occurs "@" mailbox = false →
      getDisplayName u =
        if truthy_string mailbox then mailbox else "Profile") ∧
   (occurs "@" (email u) = false →
    getDisplayName u =
      if truthy_string (email u) then email u else "Profile")).
Proof.
  unfold getDisplayName. split; [|split].
  - destruct (split_on_head "@" (email u) EmptyString eq_refl)
      as [piece [Hp Hno]].
    unfold split. rewrite Hp.
    destruct (truthy_string (first_name u) && truthy_string (last_name u))
      eqn:Eb.
    + destruct (first_name u); [discriminate Eb|]. reflexivity.
    + destruct (truthy_string piece) eqn:Et; [exact Et|reflexivity].
  - intros ->. reflexivity.
  - intros ->. unfold split. split.
    + intros mailbox rest -> Hno.
      rewrite (split_on_first "@" mailbox rest EmptyString Hno).
      reflexivity.
    + intros Hno. rewrite (split_on_without "@" (email u) EmptyString Hno).
      reflexivity.
Qed.

(** * The added properties on the reference platform *)

Lemma decodeJwt_reads_payload_segment_only_witness :
  @decodeJwt ref_platform
    (jwt_of header_hs256 "eyJleHAiOjE3MDAwMDM2MDB9" "c2ln") =
  @decodeJwt ref_platform (jwt_of "e30" "eyJleHAiOjE3MDAwMDM2MDB9" "forged").
Proof.
  apply (@decodeJwt_reads_payload_segment_only ref_platform); reflexivity.
Defined.

Example decode_payload_urlsafe :
  @decodeJwt ref_platform (jwt_of header_hs256 payload_urlsafe "c2ln") =
  JObj [("sub", JStr "?>?>?>"); ("exp", JNum 1700003600)].
Proof. reflexivity. Qed.

Lemma decodeJwt_urlsafe_alphabet_witness :
  @decodeJwt ref_platform (jwt_of header_hs256 payload_urlsafe "c2ln") =
    match @atob ref_platform payload_standard with
    | Some text =>
        match @JSON_parse ref_platform text with
        | Some v => v
        | None => JNull
        end
    | None => JNull
    end ∧
  @decodeJwt ref_platform (jwt_of header_hs256 payload_standard "c2ln") =
  @decodeJwt ref_platform (jwt_of header_hs256 payload_urlsafe "c2ln").
Proof.
  apply (@decodeJwt_urlsafe_alphabet ref_platform header_hs256
           payload_urlsafe payload_standard "c2ln"); reflexivity.
Defined.

Lemma decodeJwt_without_dot_witness :
  @decodeJwt ref_platform "eyJleHAiOjE3MDAwMDM2MDB9" = JNull.
Proof.
  apply (@decodeJwt_without_dot ref_platform). reflexivity.
Defined.

(** A state signed in on a token with [exp: 0], long after 1970. *)
Lemma falsy_expiry_is_no_expiry_witness :
  let st :=
    set_auth (signed_in ada {| access_token := token_exp_zero |})
      (@run ref_platform (init (Some token_exp_zero)) [EvMount]) in
  let st' := @checkAndScheduleRefresh ref_platform 0 (Some token_exp_zero) clock st in
  auth st' = auth st ∧ storage st' = storage st ∧ calls st' = calls st ∧
  tasks st' = tasks st ∧ next_timer st' = next_timer st.
Proof.
  apply (@falsy_expiry_is_no_expiry ref_platform 0%nat (Some token_exp_zero)
           clock _ token_exp_zero (JNum 0)); reflexivity.
Defined.

Lemma non_numeric_expiry_refreshes_at_once_witness :
  let st := @run ref_platform (init (Some token_exp_text)) [EvMount] in
  let st' := @checkAndScheduleRefresh ref_platform 0 (Some token_exp_text) clock st in
  calls st' = calls st ++ [CallRefresh] ∧
  tasks st' = tasks st ++ [(next_task st, KRefreshSession 0 FromSchedule)] ∧
  next_timer st' = next_timer st ∧
  auth st' = auth st ∧ storage st' = storage st.
Proof.
  apply (@non_numeric_expiry_refreshes_at_once ref_platform 0%nat
           (Some token_exp_text) clock _ token_exp_text (JStr "soon"));
    reflexivity.
Defined.

(** An [exp] without a primitive value: the multiplication of line 111
    throws. *)
Example unconvertible_expiry_throws :
  get_exp (@decodeJwt ref_platform token_exp_object) =
    Some (JObj [("toString", JNum 0)]) ∧
  @times_1000 ref_platform (JObj [("toString", JNum 0)]) = ThrowsTypeError ∧
  @schedule_throws ref_platform (Some token_exp_object) (init None) = true.
Proof. repeat split. Qed.

(** Bootstrap on such a token: the profile check accepts it, the schedule
    check throws inside the [try], and bootstrap ends signed out. *)
Example bootstrap_catches_unconvertible_expiry :
  let st :=
    @run ref_platform (init (Some token_exp_object))
      [EvMount; EvProfile 0 (PResp (Some ada) None) clock] in
  auth st = signed_out ∧ storage st = None ∧ timers st = [] ∧ tasks st = [].
Proof. cbv zeta. repeat split. Qed.

(** Sign-in with such a token: the token is stored and the state signed
    in, no timer is armed, and [signIn] rejects: the page shows the message
    of its [catch]. *)
Example sign_in_rejects_on_unconvertible_expiry :
  let st0 :=
    @run ref_platform (init None)
      [EvMount; EvRender; EvSignIn 1 "ada@example.org" "secret"] in
  let st := @step ref_platform st0 (EvLogin 0 (login_ok token_exp_object) clock) in
  let res :=
    snd (@resume_signIn ref_platform (login_ok token_exp_object) 1 clock st0) in
  res = SignInRejected ∧
  handleSubmit_login res = ShowError "An unexpected error occurred" ∧
  storage st = Some token_exp_object ∧
  auth st = signed_in ada {| access_token := token_exp_object |} ∧
  timers st = [] ∧ tasks st = [].
Proof. cbv zeta. repeat split. Qed.

Lemma refresh_revalidation_failure_tears_down_witness :
  let st :=
    @run ref_platform (init (Some token_1h))
      [EvMount; EvProfile 0 (PResp (Some ada) None) clock; EvFire 1;
       EvRefresh 1 (RResp (Some {| access_token := token_2h |}) None) clock] in
  let st' :=
    @step ref_platform st
      (EvProfile 2 (PResp None (Some "Unauthorized")) clock) in
  auth st' = signed_out ∧ storage st' = None ∧ calls st' = calls st ∧
  tasks st' = remove_task 2 (tasks st) ∧ timers st' = timers st ∧
  next_timer st' = next_timer st.
Proof.
  apply (@refresh_revalidation_failure_tears_down ref_platform _ 2%nat 0%nat
           FromSchedule {| access_token := token_2h |}).
  - reflexivity.
  - right. left. exists (Some "Unauthorized"). reflexivity.
Defined.

Lemma sign_out_during_refresh_is_overwritten_witness :
  let st :=
    @run ref_platform (init (Some token_1h))
      [EvMount; EvProfile 0 (PResp (Some ada) None) clock; EvFire 1] in
  let st1 := fst (signOut 0 st) in
  let st2 :=
    @step ref_platform st1
      (EvRefresh 1 (RResp (Some {| access_token := token_2h |}) None) clock) in
  auth st1 = signed_out ∧ storage st1 = None ∧
  storage st2 = Some token_2h ∧
  calls st2 = calls st ++ [CallProfile].
Proof.
  apply (@sign_out_during_refresh_is_overwritten ref_platform _ 1%nat 0%nat
           0%nat FromSchedule {| access_token := token_2h |} clock);
    reflexivity.
Defined.

Lemma sign_out_during_revalidation_signs_in_again_witness :
  let st :=
    @run ref_platform (init (Some token_1h))
      [EvMount; EvProfile 0 (PResp (Some ada) None) clock; EvFire 1;
       EvRefresh 1 (RResp (Some {| access_token := token_2h |}) None) clock] in
  let st1 := fst (signOut 0 st) in
  let st2 :=
    @step ref_platform st1 (EvProfile 2 (PResp (Some ada) None) clock) in
  auth st1 = signed_out ∧ storage st1 = None ∧
  auth st2 = signed_in ada {| access_token := token_2h |} ∧
  storage st2 = None ∧
  calls st2 = calls st ∧ next_timer st2 = next_timer st.
Proof.
  apply (@sign_out_during_revalidation_signs_in_again ref_platform _ 2%nat
           0%nat 0%nat FromSchedule {| access_token := token_2h |} ada None
           clock); reflexivity.
Defined.

Lemma bootstrap_without_token_witness :
  let st := @step ref_platform (init (Some "")) EvMount in
  auth st = signed_out ∧ storage st = None ∧ calls st = [] ∧
  tasks st = [] ∧ timers st = [].
Proof.
  apply (@bootstrap_without_token ref_platform (Some "")). reflexivity.
Defined.

Lemma bootstrap_recovers_by_refresh_witness :
  let st :=
    @run ref_platform (init (Some token_opaque))
      [EvMount; EvProfile 0 (PResp None (Some "Invalid token")) clock;
       EvRefresh 1 (RResp (Some {| access_token := token_2h |}) None) clock;
       EvProfile 2 (PResp (Some ada) None) clock] in
  auth st = signed_in ada {| access_token := token_2h |} ∧
  storage st = Some token_2h ∧
  calls st = [CallProfile; CallRefresh; CallProfile] ∧
  tasks st = [] ∧
  timers st = [{| tm_id := 1; tm_delay := 6900000; tm_render := 0 |}].
Proof.
  apply (@bootstrap_recovers_by_refresh ref_platform token_opaque
           (Some "Invalid token") None {| access_token := token_2h |} ada
           1700007200 clock clock clock).
  - reflexivity.
  - reflexivity.
  - reflexivity.
  - reflexivity.
  - unfold clock. lia.
  - unfold clock, REFRESH_BUFFER. simpl. lia.
Defined.

Lemma sign_in_with_expired_token_reports_success_witness :
  let st := @run ref_platform (init None) [EvMount; EvRender] in
  let res := @resume_signIn ref_platform (login_ok token_past) 1 clock st in
  snd res = SignInReturn (Some ada) None ∧
  handleSubmit_login (snd res) = GoToJobs ∧
  auth (fst res) = signed_out ∧
  storage (fst res) = None ∧
  next_timer (fst res) = next_timer st ∧
  calls (fst res) = calls st.
Proof.
  apply (@sign_in_with_expired_token_reports_success ref_platform
           (@run ref_platform (init None) [EvMount; EvRender]) 1%nat clock
           token_past ada None 1600000000).
  - reflexivity.
  - reflexivity.
  - lia.
  - unfold clock. lia.
Defined.

(** The sign-out of C8, as a case of the general statement: the timer of
    render 0 is not of render 1 and stays. *)
Lemma signOut_cancels_own_timer_only_witness :
  let st :=
    @run ref_platform (init (Some token_1h))
      [EvMount; EvProfile 0 (PResp (Some ada) None) clock; EvRender] in
  let st' := @step ref_platform st (EvSignOut 1) in
  auth st' = signed_out ∧ storage st' = None ∧
  timers st' = filter (fun t => tm_render t ≠ 1%nat) (timers st) ∧
  tasks st' = tasks st ∧ calls st' = calls st.
Proof.
  apply (@signOut_cancels_own_timer_only ref_platform (Some token_1h)
           [EvMount; EvProfile 0 (PResp (Some ada) None) clock; EvRender]
           1%nat).
  simpl. lia.
Defined.

(** The timer left by the sign-out of C8 fires. *)
Lemma scheduled_refresh_rearms_witness :
  let st :=
    @run ref_platform (init (Some token_1h))
      [EvMount; EvProfile 0 (PResp (Some ada) None) clock; EvRender;
       EvSignOut 1] in
  let st' :=
    @run ref_platform st
      [EvFire 1;
       EvRefresh (next_task st)
         (RResp (Some {| access_token := token_2h |}) None) clock;
       EvProfile (S (next_task st)) (PResp (Some ada) None) clock] in
  auth st' = signed_in ada {| access_token := token_2h |} ∧
  storage st' = Some token_2h ∧
  calls st' = calls st ++ [CallRefresh; CallProfile] ∧
  tasks st' = tasks st ∧
  timers_of_render 0 (timers st') =
    [{| tm_id := next_timer st; tm_delay := 1700007200 * 1000 - clock - REFRESH_BUFFER;
        tm_render := 0 |}].
Proof.
  apply (@scheduled_refresh_rearms ref_platform (Some token_1h)
           [EvMount; EvProfile 0 (PResp (Some ada) None) clock; EvRender;
            EvSignOut 1]
           1%nat {| tm_id := 1; tm_delay := 3300000; tm_render := 0 |}
           {| access_token := token_2h |} ada None 1700007200 clock clock).
  - reflexivity.
  - reflexivity.
  - reflexivity.
  - unfold clock. lia.
  - unfold clock, REFRESH_BUFFER. simpl. lia.
Defined.

(** While the profile check of bootstrap is awaited, [loading] is on and
    the operation is pending. *)
Lemma loading_only_during_bootstrap_witness :
  let st := @run ref_platform (init (Some token_1h)) [EvMount] in
  cells st = [] ∨ boot_pending st.
Proof.
  apply (@loading_only_during_bootstrap ref_platform (Some token_1h)
           [EvMount]).
  reflexivity.
Defined.
